(** * SoundcloudDownloader: a shallow embedding of [soundclouddownloader/main.py]

    The development follows the source file top to bottom:

    - Python values, exceptions and [pathlib] paths as the code uses them;
    - the file system the code reads and mutates ([exists], [iterdir],
      [unlink], [rmtree], [mkdir]);
    - the collaborators that live outside [main.py] (the yt-dlp extractor,
      [clean_filename], [create_zip], the random source, the completion
      order of the worker pool), gathered in one [environment] record;
    - a state-and-exception monad in which [download_track],
      [get_playlist_info] and [download_playlist] are written statement by
      statement;
    - the properties of those three methods. *)

From Stdlib Require Import List String Ascii Bool Arith ZArith QArith Lia Lqa.
Import ListNotations.

Local Close Scope Q_scope.
Local Open Scope nat_scope.
Local Open Scope string_scope.
Local Open Scope list_scope.

Set Warnings "-register-all".

(* ===================================================================== *)
(** ** Strings *)
(* ===================================================================== *)

Module Str.

(** [s.startswith(p)] *)
Fixpoint startswith (s p : string) : bool :=
  match p, s with
  | EmptyString, _ => true
  | String _ _, EmptyString => false
  | String a p', String b s' => Ascii.eqb a b && startswith s' p'
  end.

(** [s.rfind(c)], [None] standing for Python's -1. *)
Fixpoint rfind (c : ascii) (s : string) : option nat :=
  match s with
  | EmptyString => None
  | String a s' =>
      match rfind c s' with
      | Some i => Some (S i)
      | None => if Ascii.eqb a c then Some 0 else None
      end
  end.

(** [s.split(c)]: the pieces between occurrences of [c], never empty as a list. *)
Fixpoint split (c : ascii) (s : string) : list string :=
  match s with
  | EmptyString => [EmptyString]
  | String a s' =>
      if Ascii.eqb a c then EmptyString :: split c s'
      else match split c s' with
           | [] => [String a EmptyString]
           | w :: ws => String a w :: ws
           end
  end.

(** [sep.join(l)] *)
Fixpoint join (sep : string) (l : list string) : string :=
  match l with
  | [] => EmptyString
  | [w] => w
  | w :: ws => w ++ sep ++ join sep ws
  end.

(** [s[:n]] *)
Fixpoint take (n : nat) (s : string) : string :=
  match n, s with
  | O, _ => EmptyString
  | _, EmptyString => EmptyString
  | S n', String a s' => String a (take n' s')
  end.

(** [s[n:]] *)
Fixpoint drop (n : nat) (s : string) : string :=
  match n, s with
  | O, _ => s
  | _, EmptyString => EmptyString
  | S n', String _ s' => drop n' s'
  end.

Fixpoint forallb (f : ascii -> bool) (s : string) : bool :=
  match s with
  | EmptyString => true
  | String a s' => f a && forallb f s'
  end.

Fixpoint filter (f : ascii -> bool) (s : string) : string :=
  match s with
  | EmptyString => EmptyString
  | String a s' => if f a then String a (filter f s') else filter f s'
  end.

Definition is_empty (s : string) : bool :=
  match s with EmptyString => true | _ => false end.

End Str.

(* ===================================================================== *)
(** ** Python values and exceptions *)
(* ===================================================================== *)

(** The extractor hands back JSON-like data ([Dict[str, Any]]); a [dict] is
    kept as an association list, the first binding of a key being the live
    one. *)
Inductive pyval : Type :=
| VNone
| VBool (b : bool)
| VInt (z : Z)
| VStr (s : string)
| VList (l : list pyval)
| VDict (kvs : list (string * pyval)).

(** Python truth value testing, as used by [or], [and], [not] and [if]. *)
Definition truthy (v : pyval) : bool :=
  match v with
  | VNone => false
  | VBool b => b
  | VInt z => negb (z =? 0)%Z
  | VStr s => negb (Str.is_empty s)
  | VList l => match l with [] => false | _ => true end
  | VDict kvs => match kvs with [] => false | _ => true end
  end.

(** [a or b] *)
Definition py_or (a b : pyval) : pyval := if truthy a then a else b.

Fixpoint assoc (k : string) (kvs : list (string * pyval)) : option pyval :=
  match kvs with
  | [] => None
  | (k', v) :: rest => if String.eqb k k' then Some v else assoc k rest
  end.

(** [d.get(k)] on a dict: the value, or [None] when the key is absent. *)
Definition dict_get (kvs : list (string * pyval)) (k : string) : pyval :=
  match assoc k kvs with Some v => v | None => VNone end.

(** [isinstance(e, dict)] *)
Definition is_dict (v : pyval) : bool :=
  match v with VDict _ => true | _ => false end.

(** The exception classes the code can meet.  [KeyboardInterrupt] and
    [SystemExit] derive from [BaseException] only, so [except Exception]
    lets them through. *)
Inductive exn_class : Type :=
| DownloadError | ExtractorError
| AttributeError | KeyError | TypeError | ValueError
| FileNotFoundError | FileExistsError | IsADirectoryError | NotADirectoryError
| KeyboardInterrupt | SystemExit.

Record exn : Type := mk_exn { exn_class_of : exn_class; exn_msg : string }.

(** [isinstance(e, Exception)] *)
Definition is_Exception (e : exn) : bool :=
  match exn_class_of e with
  | KeyboardInterrupt | SystemExit => false
  | _ => true
  end.

(** What running a piece of code yields: a value, or a raised exception. *)
Inductive outcome (A : Type) : Type :=
| Returned (a : A)
| Raised (e : exn).
Arguments Returned {A} a.
Arguments Raised {A} e.

(* ===================================================================== *)
(** ** [pathlib] paths *)
(* ===================================================================== *)

(** A resolved absolute path is the list of its components below the root;
    [[]] is the root itself. *)
Definition path : Type := list string.

Module Path.

Fixpoint eqb (p q : path) : bool :=
  match p, q with
  | [], [] => true
  | a :: p', b :: q' => String.eqb a b && eqb p' q'
  | _, _ => false
  end.

(** The components a string contributes to a path: split at the
    separator, empty and [.] pieces dropped. *)
Definition components (s : string) : list string :=
  List.filter (fun w => negb (Str.is_empty w || String.eqb w "."))
              (Str.split "/" s).

Definition is_absolute (s : string) : bool :=
  match s with String "/" _ => true | _ => false end.

(** [p / s]: an absolute right operand replaces the left one. *)
Definition joinpath (p : path) (s : string) : path :=
  if is_absolute s then components s else p ++ components s.

(** [p.name]: the final component, empty for the root. *)
Definition name (p : path) : string := last p EmptyString.

(** [p.parent] *)
Definition parent (p : path) : path := removelast p.

(** The index at which the suffix of a file name starts: the last dot,
    unless it is the first or the last character. *)
Definition suffix_index (nm : string) : option nat :=
  match Str.rfind "." nm with
  | Some i => if Nat.ltb 0 i && Nat.ltb i (String.length nm - 1) then Some i else None
  | None => None
  end.

(** [PurePath(nm).suffix] *)
Definition suffix_of (nm : string) : string :=
  match suffix_index nm with Some i => Str.drop i nm | None => EmptyString end.

(** [PurePath(nm).stem] *)
Definition stem_of (nm : string) : string :=
  match suffix_index nm with Some i => Str.take i nm | None => nm end.

Definition stem (p : path) : string := stem_of (name p).

(** [p.with_suffix(ext)] for a well-formed [ext] such as [.mp3]: the old
    suffix, if any, is replaced; a path with an empty name raises
    [ValueError]. *)
Definition with_suffix (p : path) (ext : string) : outcome path :=
  if Str.is_empty (name p)
  then Raised (mk_exn ValueError "path has an empty name")
  else Returned (parent p ++ [(stem_of (name p) ++ ext)%string]).

(** [str(p)] *)
Definition to_str (p : path) : string := "/" ++ Str.join "/" p.

(** [d] is [p] or one of its ancestors. *)
Fixpoint is_prefix (d p : path) : bool :=
  match d, p with
  | [], _ => true
  | _ :: _, [] => false
  | a :: d', b :: p' => String.eqb a b && is_prefix d' p'
  end.

(** [p.relative_to(base)] *)
Fixpoint relative_to (p base : path) : option path :=
  match base, p with
  | [], _ => Some p
  | _ :: _, [] => None
  | a :: base', b :: p' => if String.eqb a b then relative_to p' base' else None
  end.

End Path.

(* ===================================================================== *)
(** ** The file system *)
(* ===================================================================== *)

(** What a regular file holds: the media fetched from a URL, or a zip
    archive with its member names. *)
Inductive content : Type :=
| Media (src : string)
| Archive (members : list path).

Inductive node : Type :=
| Dir
| File (c : content).

(** The directory entries of the output tree in listing order.  The root
    always exists.  The log file of the program is kept apart, see
    [log_sink]. *)
Definition filesystem : Type := list (path * node).

Module FS.

Fixpoint lookup (fs : filesystem) (p : path) : option node :=
  match fs with
  | [] => None
  | (q, n) :: rest => if Path.eqb q p then Some n else lookup rest p
  end.

(** [p.exists()] *)
Definition exists_ (fs : filesystem) (p : path) : bool :=
  match p with
  | [] => true
  | _ => match lookup fs p with Some _ => true | None => false end
  end.

(** [p.is_dir()] *)
Definition is_dir (fs : filesystem) (p : path) : bool :=
  match p with
  | [] => true
  | _ => match lookup fs p with Some Dir => true | _ => false end
  end.

(** [p.is_file()] *)
Definition is_file (fs : filesystem) (p : path) : bool :=
  match lookup fs p with Some (File _) => true | _ => false end.

Definition remove (fs : filesystem) (p : path) : filesystem :=
  List.filter (fun '(q, _) => negb (Path.eqb q p)) fs.

(** The entries directly inside [d], in listing order. *)
Definition children (fs : filesystem) (d : path) : list path :=
  map fst (List.filter
             (fun '(q, _) => match q with
                             | [] => false
                             | _ => Path.eqb (Path.parent q) d
                             end) fs).

(** [list(d.iterdir())] *)
Definition iterdir (fs : filesystem) (d : path) : outcome (list path) :=
  if is_dir fs d then Returned (children fs d)
  else if exists_ fs d then Raised (mk_exn NotADirectoryError (Path.to_str d))
  else Raised (mk_exn FileNotFoundError (Path.to_str d)).

(** [p.unlink()], with [missing_ok] left at its default [False]. *)
Definition unlink (fs : filesystem) (p : path) : outcome filesystem :=
  match p with
  | [] => Raised (mk_exn IsADirectoryError (Path.to_str p))
  | _ =>
      match lookup fs p with
      | Some (File _) => Returned (remove fs p)
      | Some Dir => Raised (mk_exn IsADirectoryError (Path.to_str p))
      | None => Raised (mk_exn FileNotFoundError (Path.to_str p))
      end
  end.

(** [shutil.rmtree(d)]: [d] and everything below it goes. *)
Definition rmtree (fs : filesystem) (d : path) : outcome filesystem :=
  if is_dir fs d
  then Returned (List.filter (fun '(q, _) => negb (Path.is_prefix d q)) fs)
  else if exists_ fs d then Raised (mk_exn NotADirectoryError (Path.to_str d))
  else Raised (mk_exn FileNotFoundError (Path.to_str d)).

(** [p.mkdir(exist_ok=True)]: the parent has to be a directory. *)
Definition mkdir (fs : filesystem) (p : path) : outcome filesystem :=
  match p with
  | [] => Returned fs
  | _ =>
      match lookup fs p with
      | Some Dir => Returned fs
      | Some (File _) => Raised (mk_exn FileExistsError (Path.to_str p))
      | None =>
          if is_dir fs (Path.parent p) then Returned (fs ++ [(p, Dir)])
          else if exists_ fs (Path.parent p)
               then Raised (mk_exn NotADirectoryError (Path.to_str p))
               else Raised (mk_exn FileNotFoundError (Path.to_str p))
      end
  end.

(** [p.mkdir(parents=True, exist_ok=True)]: the missing ancestors are
    made first, outermost first; [done] is the part of the path already
    walked. *)
Fixpoint mkdir_from (fs : filesystem) (done todo : path) : outcome filesystem :=
  match todo with
  | [] => Returned fs
  | c :: todo' =>
      match mkdir fs (done ++ [c]) with
      | Returned fs' => mkdir_from fs' (done ++ [c]) todo'
      | Raised e => Raised e
      end
  end.

Definition mkdir_parents (fs : filesystem) (p : path) : outcome filesystem :=
  mkdir_from fs [] p.

(** Writing a regular file (new, or over an existing file). *)
Definition write (fs : filesystem) (p : path) (c : content) : filesystem :=
  remove fs p ++ [(p, File c)].

End FS.

(* ===================================================================== *)
(** ** The helpers of [soundclouddownloader/utils.py] *)
(* ===================================================================== *)

Module Utils.

(** The characters no sanitized name may hold: the control characters and
    the punctuation that common file systems reject. *)
Definition unsafe_punctuation : list ascii :=
  ["<"; ">"; ":"; ascii_of_nat 34; "/"; "\"; "|"; "?"; "*"]%char.

Definition is_control (c : ascii) : bool :=
  Nat.ltb (nat_of_ascii c) 32 || Nat.eqb (nat_of_ascii c) 127.

Definition unsafe_char (c : ascii) : bool :=
  is_control c || existsb (Ascii.eqb c) unsafe_punctuation.

(** White space: the blank and the codes 9 to 13 (tab, line feed, vertical
    tab, form feed, carriage return). *)
Definition is_space (c : ascii) : bool :=
  Ascii.eqb c " " || (Nat.leb 9 (nat_of_ascii c) && Nat.leb (nat_of_ascii c) 13).

(** Unsafe characters are stripped; white space is left to [collapse_ws]. *)
Definition strip_unsafe (s : string) : string :=
  Str.filter (fun c => is_space c || negb (unsafe_char c)) s.

(** Every run of white space becomes one blank; [prev] tells that the
    character before [s] was white space. *)
Fixpoint collapse_ws (prev : bool) (s : string) : string :=
  match s with
  | EmptyString => EmptyString
  | String c s' =>
      if is_space c
      then if prev then collapse_ws true s' else String " " (collapse_ws true s')
      else String c (collapse_ws false s')
  end.

(** Modelled from the spec: [clean_filename], defined in
    [soundclouddownloader/utils.py], which is not among the sources.  The
    spec's contract, in its order: strip the characters illegal or risky
    across common file systems, collapse white space, enforce a maximum
    length.  It is a total function of its argument alone. *)
Definition clean_filename_with (max_length : nat) (filename : string) : string :=
  Str.take max_length (collapse_ws false (strip_unsafe filename)).

Definition max_filename_length : nat := 255.

Definition clean_filename (filename : string) : string :=
  clean_filename_with max_filename_length filename.

(** The member names of the archive: each file relative to [base_dir]. *)
Fixpoint zip_members (fs : filesystem) (files : list path) (base_dir : path)
  : outcome (list path) :=
  match files with
  | [] => Returned []
  | f :: rest =>
      if FS.is_file fs f then
        match Path.relative_to f base_dir with
        | Some r =>
            match zip_members fs rest base_dir with
            | Returned ms => Returned (r :: ms)
            | Raised e => Raised e
            end
        | None => Raised (mk_exn ValueError (Path.to_str f))
        end
      else Raised (mk_exn FileNotFoundError (Path.to_str f))
  end.

(** Modelled from the spec: [create_zip], defined in
    [soundclouddownloader/utils.py], which is not among the sources.  Given
    a list of file paths and a base directory it produces a single zip
    archive at the target path, containing those files with paths
    relative to the base directory. *)
Definition create_zip (files : list path) (zip_filename base_dir : path)
           (fs : filesystem) : outcome unit * filesystem :=
  match zip_members fs files base_dir with
  | Returned ms =>
      if FS.is_dir fs zip_filename
      then (Raised (mk_exn IsADirectoryError (Path.to_str zip_filename)), fs)
      else (Returned tt, FS.write fs zip_filename (Archive ms))
  | Raised e => (Raised e, fs)
  end.

End Utils.

(* ===================================================================== *)
(** ** The data classes of [soundclouddownloader/dataclass.py] *)
(* ===================================================================== *)

(** The fields are whatever the extractor delivered ([Any]). *)
Module Track.
Record t : Type := mk { id : pyval; title : pyval; artist : pyval; url : pyval }.
End Track.

Module Playlist.
Record t : Type := mk { id : pyval; title : pyval; tracks : list Track.t }.
End Playlist.

(* ===================================================================== *)
(** ** Effects: the log, the clock, the file system *)
(* ===================================================================== *)

Inductive level : Type := DEBUG | INFO | WARNING | ERROR.

(** One constructor per [logger] call of [SoundCloudDownloader]. *)
Inductive message : Type :=
| SkippingProbe (title url : pyval) (e : exn)
| SkippingDownload (title : pyval) (e : exn)
| FileNotFoundAfterDownload (p : path)
| DirectoryContents (l : list path)
| SuccessfullyDownloaded (p : path)
| DownloadingToDirectory (d : path)
| NoFilesDownloaded.

(** What an observer sees, in program order: log calls, [time.sleep], and
    the looks the code takes at the file system ([exists], [iterdir]). *)
Inductive event : Type :=
| Log (l : level) (m : message)
| Sleep (seconds : Q)
| Stat (p : path)
| Scan (d : path).

Record world : Type := mk_world {
  fs_of : filesystem;
  trace_of : list event;
  draws_of : nat   (* how many random numbers were drawn so far *)
}.

(** A statement: it runs in a world, returns or raises, and leaves a world. *)
Definition M (A : Type) : Type := world -> outcome A * world.

Definition ret {A} (a : A) : M A := fun w => (Returned a, w).

Definition raise {A} (e : exn) : M A := fun w => (Raised e, w).

Definition bind {A B} (m : M A) (k : A -> M B) : M B :=
  fun w => match m w with
           | (Returned a, w') => k a w'
           | (Raised e, w') => (Raised e, w')
           end.

Notation "x <- m ;; k" := (bind m (fun x => k))
  (at level 61, m at next level, right associativity).
Notation "m ;; k" := (bind m (fun _ => k))
  (at level 61, right associativity).

Definition lift {A} (o : outcome A) : M A := fun w => (o, w).

(** [try: body  except Exception as e: handler e].  Whatever the body did
    to the world before raising stays done. *)
Definition try_except {A} (body : M A) (handler : exn -> M A) : M A :=
  fun w => match body w with
           | (Returned a, w') => (Returned a, w')
           | (Raised e, w') => if is_Exception e then handler e w' else (Raised e, w')
           end.

(** A [logger] call.  The two sinks of lines 11 and 12, the standard error
    stream and the file [soundcloud_downloader.log], are not entries of the
    [filesystem] of a world, which holds the output tree: what they receive
    is read off the trace by [log_sink]. *)
Definition log (l : level) (m : message) : M unit :=
  fun w => (Returned tt, mk_world (fs_of w) (trace_of w ++ [Log l m]) (draws_of w)).

(** The lines a sink added with [level="INFO"] has received: the log calls
    at INFO or above, in order. *)
Definition log_sink (trace : list event) : list message :=
  flat_map (fun ev => match ev with
                      | Log DEBUG _ => []
                      | Log _ m => [m]
                      | _ => []
                      end) trace.

(** [time.sleep(d)]: a negative length raises [ValueError]. *)
Definition sleep (d : Q) : M unit :=
  fun w => if Qle_bool 0 d
           then (Returned tt, mk_world (fs_of w) (trace_of w ++ [Sleep d]) (draws_of w))
           else (Raised (mk_exn ValueError "sleep length must be non-negative"), w).

Definition with_fs {A} (f : filesystem -> outcome A * filesystem) : M A :=
  fun w => let (o, fs') := f (fs_of w) in (o, mk_world fs' (trace_of w) (draws_of w)).

Definition read_fs {A} (f : filesystem -> A) : M A :=
  fun w => (Returned (f (fs_of w)), w).

Definition update_fs (f : filesystem -> outcome filesystem) : M unit :=
  with_fs (fun fs => match f fs with
                     | Returned fs' => (Returned tt, fs')
                     | Raised e => (Raised e, fs)
                     end).

Definition observe (ev : event) : M unit :=
  fun w => (Returned tt, mk_world (fs_of w) (trace_of w ++ [ev]) (draws_of w)).

Definition path_exists (p : path) : M bool :=
  observe (Stat p) ;; read_fs (fun fs => FS.exists_ fs p).
Definition iterdir (d : path) : M (list path) :=
  observe (Scan d) ;; with_fs (fun fs => (FS.iterdir fs d, fs)).
Definition unlink (p : path) : M unit := update_fs (fun fs => FS.unlink fs p).
Definition rmtree (d : path) : M unit := update_fs (fun fs => FS.rmtree fs d).
Definition mkdir (p : path) : M unit := update_fs (fun fs => FS.mkdir fs p).
Definition mkdir_parents (p : path) : M unit := update_fs (fun fs => FS.mkdir_parents fs p).

(* ===================================================================== *)
(** ** Collaborators *)
(* ===================================================================== *)

(** Everything [main.py] calls but does not define.  The extractor is a
    black box: [extract_info] and [prepare_filename] answer or raise,
    [download] also writes to the file system.  [as_completed] is the order
    in which the worker pool finishes the submitted tasks, [random_bits] the
    53 random bits behind each call of [random.random()]. *)
Record environment : Type := {
  extract_info : pyval -> outcome pyval;
  prepare_filename : pyval -> outcome string;
  download : string -> pyval -> filesystem -> outcome unit * filesystem;
  clean_filename : string -> string;
  create_zip : list path -> path -> path -> filesystem -> outcome unit * filesystem;
  as_completed : list Track.t -> list Track.t;
  random_bits : nat -> N
}.

Section SoundCloudDownloader.

Variable env : environment.

(** [random.random()]: a multiple of [2^-53] in [[0, 1)]. *)
Definition random_unit (i : nat) : Q :=
  (inject_Z (Z.of_N (N.modulo (random_bits env i) (2 ^ 53))) / inject_Z (2 ^ 53))%Q.

(** [random.uniform(a, b)], which is [a + (b - a) * random()]; the
    arithmetic is exact here. *)
Definition random_uniform (a b : Z) : M Q :=
  fun w => (Returned (inject_Z a + (inject_Z b - inject_Z a) * random_unit (draws_of w))%Q,
            mk_world (fs_of w) (trace_of w) (S (draws_of w))).

(** [clean_filename(x)] on a value of unknown type: the helper works on
    strings, anything else is a [TypeError]. *)
Definition call_clean_filename (v : pyval) : outcome string :=
  match v with
  | VStr s => Returned (clean_filename env s)
  | _ => Raised (mk_exn TypeError "expected string or bytes-like object")
  end.

(* ------------------------------------------------------------------- *)
(** *** [download_track] *)

(** Lines 80 to 100: find the file the fetch left behind. *)
Definition resolve_downloaded (output_dir : path) (clean_name : string)
           (filepath_without_ext : path) : M (option path) :=
  sleep (1 # 2) ;;
  mp3 <- lift (Path.with_suffix filepath_without_ext ".mp3") ;;
  has_mp3 <- path_exists mp3 ;;
  filepath <- (if has_mp3 : bool then ret (Some mp3)
               else as_is <- path_exists filepath_without_ext ;;
                    if as_is : bool then ret (Some filepath_without_ext)
                    else ret None) ;;
  match filepath with
  | Some f => log INFO (SuccessfullyDownloaded f) ;; ret (Some f)
  | None =>
      dir_contents <- iterdir output_dir ;;
      let similar_files :=
        List.filter (fun f => Str.startswith (Path.stem f) clean_name) dir_contents in
      match similar_files with
      | f :: _ => log INFO (SuccessfullyDownloaded f) ;; ret (Some f)
      | [] =>
          log INFO (FileNotFoundAfterDownload filepath_without_ext) ;;
          log DEBUG (DirectoryContents dir_contents) ;;
          ret None
      end
  end.

Definition download_track (track : Track.t) (output_dir : path) : M (option path) :=
  (* metadata probe *)
  probe <- try_except
             (info <- lift (extract_info env (Track.url track)) ;;
              filename <- lift (prepare_filename env info) ;;
              ret (Some filename))
             (fun e =>
                log INFO (SkippingProbe (Track.title track) (Track.url track) e) ;;
                ret None) ;;
  match probe with
  | None => ret None
  | Some filename =>
      let clean_name := clean_filename env filename in
      let filepath_without_ext := Path.joinpath output_dir clean_name in
      (* actual download *)
      fetched <- try_except
                   (with_fs (download env (Path.to_str filepath_without_ext)
                                      (Track.url track)) ;;
                    ret true)
                   (fun e =>
                      log INFO (SkippingDownload (Track.title track) e) ;;
                      ret false) ;;
      if fetched : bool
      then resolve_downloaded output_dir clean_name filepath_without_ext
      else ret None
  end.

(* ------------------------------------------------------------------- *)
(** *** [get_playlist_info] *)

(** [e.get(k)] on an entry that passed the [isinstance(e, dict)] filter. *)
Definition entry_get (e : pyval) (k : string) : pyval :=
  match e with VDict kvs => dict_get kvs k | _ => VNone end.

(** One round of the loop over [entries]: [None] is the [continue]. *)
Definition entry_track (e : pyval) : option Track.t :=
  let url := py_or (entry_get e "webpage_url") (entry_get e "url") in
  let title := entry_get e "title" in
  let tid := entry_get e "id" in
  let artist := py_or (py_or (entry_get e "uploader") (entry_get e "uploader_id"))
                      (VStr EmptyString) in
  if negb (truthy url && truthy title && truthy tid) then None
  else Some (Track.mk tid title artist url).

Definition append_track (tracks : list Track.t) (e : pyval) : list Track.t :=
  match entry_track e with
  | None => tracks
  | Some t => tracks ++ [t]
  end.

(** Iterating a value: lists give their items, strings their characters,
    dicts their keys; nothing else the extractor returns is iterable. *)
Definition py_iter (v : pyval) : outcome (list pyval) :=
  match v with
  | VList l => Returned l
  | VStr s => Returned (map (fun c => VStr (String c EmptyString)) (list_ascii_of_string s))
  | VDict kvs => Returned (map (fun kv => VStr (fst kv)) kvs)
  | _ => Raised (mk_exn TypeError "object is not iterable")
  end.

(** [d[k]] *)
Definition dict_item (kvs : list (string * pyval)) (k : string) : outcome pyval :=
  match assoc k kvs with
  | Some v => Returned v
  | None => Raised (mk_exn KeyError k)
  end.

Definition get_playlist_info (playlist_url : string) : M Playlist.t :=
  playlist_info <- lift (extract_info env (VStr playlist_url)) ;;
  match playlist_info with
  | VDict info =>
      let raw_entries := py_or (dict_get info "entries") (VList []) in
      raw <- lift (py_iter raw_entries) ;;
      let entries := List.filter is_dict raw in
      let tracks := fold_left append_track entries [] in
      pid <- lift (dict_item info "id") ;;
      ptitle <- lift (dict_item info "title") ;;
      ret (Playlist.mk pid ptitle tracks)
  | _ => raise (mk_exn AttributeError "object has no attribute get")
  end.

(* ------------------------------------------------------------------- *)
(** *** [download_playlist] *)

(** The worker pool.  Each submitted task is one call of
    [download_track]; a task that raises keeps its exception in its
    future.  The tasks are run to completion one after the other in the
    order [as_completed] reports them, so the trace shows their events
    before those of the loop that consumes the futures. *)
Fixpoint run_tasks (tracks : list Track.t) (playlist_dir : path)
  : M (list (outcome (option path))) :=
  match tracks with
  | [] => ret []
  | track :: rest =>
      fun w =>
        let (future, w1) := download_track track playlist_dir w in
        match run_tasks rest playlist_dir w1 with
        | (Returned futures, w2) => (Returned (future :: futures), w2)
        | (Raised e, w2) => (Raised e, w2)
        end
  end.

(** The loop over the completed futures, lines 175 to 182. *)
Fixpoint collect (futures : list (outcome (option path))) (min_delay max_delay : Z)
         (downloaded_files : list path) : M (list path) :=
  match futures with
  | [] => ret downloaded_files
  | future :: rest =>
      filepath <- lift future ;;     (* future.result() *)
      let downloaded_files' :=
        match filepath with
        | Some f => downloaded_files ++ [f]
        | None => downloaded_files
        end in
      delay <- random_uniform min_delay max_delay ;;
      sleep delay ;;
      collect rest min_delay max_delay downloaded_files'
  end.

(** [for file in downloaded_files: file.unlink()] *)
Fixpoint unlink_all (files : list path) : M unit :=
  match files with
  | [] => ret tt
  | file :: rest => unlink file ;; unlink_all rest
  end.

(** Lines 184 to 196. *)
Definition finish (output_dir : path) (playlist_name : string) (playlist_dir : path)
           (should_zip : bool) (downloaded_files : list path) : M (option path) :=
  match downloaded_files with
  | _ :: _ =>
      if should_zip then
        let zip_filename := Path.joinpath output_dir (playlist_name ++ ".zip") in
        with_fs (create_zip env downloaded_files zip_filename playlist_dir) ;;
        unlink_all downloaded_files ;;
        rmtree playlist_dir ;;
        ret (Some zip_filename)
      else ret (Some playlist_dir)
  | [] =>
      log ERROR NoFilesDownloaded ;;
      ret None
  end.

(** Lines 159 to 167: the directories and the playlist.  [output_dir] is
    the path after [Path(output_dir).resolve()]. *)
Definition prepare (playlist_url : string) (output_dir : path)
  : M (Playlist.t * string * path) :=
  mkdir_parents output_dir ;;
  log DEBUG (DownloadingToDirectory output_dir) ;;
  playlist <- get_playlist_info playlist_url ;;
  playlist_name <- lift (call_clean_filename (Playlist.title playlist)) ;;
  let playlist_dir := Path.joinpath output_dir playlist_name in
  mkdir playlist_dir ;;
  ret (playlist, playlist_name, playlist_dir).

(** [ThreadPoolExecutor(max_workers=n)] refuses [n <= 0]. *)
Definition thread_pool (max_workers : Z) : M unit :=
  if (max_workers <=? 0)%Z
  then raise (mk_exn ValueError "max_workers must be greater than 0")
  else ret tt.

Definition download_playlist (playlist_url : string) (output_dir : path)
           (max_workers min_delay max_delay : Z) (should_zip : bool) : M (option path) :=
  ctx <- prepare playlist_url output_dir ;;
  let '(playlist, playlist_name, playlist_dir) := ctx in
  thread_pool max_workers ;;
  futures <- run_tasks (as_completed env (Playlist.tracks playlist)) playlist_dir ;;
  downloaded_files <- collect futures min_delay max_delay [] ;;
  finish output_dir playlist_name playlist_dir should_zip downloaded_files.

End SoundCloudDownloader.

(** The defaults of [download_playlist]'s keyword arguments. *)
Definition default_max_workers : Z := 5.
Definition default_min_delay : Z := 3.
Definition default_max_delay : Z := 10.

(* ===================================================================== *)
(** ** The command line: [main] *)
(* ===================================================================== *)

(** [s.lower()] and [s.strip()] on a line of input, kept as the bytes of its
    UTF-8 encoding. *)
Module Text.

(** [s.lower()], of which [main] only asks whether it is [y] or [n]: the
    ASCII capitals are lowered, and no character outside ASCII lowers to
    one of these two letters. *)
Definition lower_char (c : ascii) : ascii :=
  let n := nat_of_ascii c in
  if Nat.leb 65 n && Nat.leb n 90 then ascii_of_nat (n + 32) else c.

Fixpoint lower (s : string) : string :=
  match s with
  | EmptyString => EmptyString
  | String c s' => String (lower_char c) (lower s')
  end.

(** The white space of [str.strip()], which is that of [str.isspace]: the
    code points 9 to 13, 28 to 32, U+0085, U+00A0, U+1680, U+2000 to U+200A,
    U+2028, U+2029, U+202F, U+205F and U+3000.  A line is kept as the bytes
    of its UTF-8 encoding, so these are sequences of one, two or three
    bytes. *)
Definition blank1 (a : nat) : bool :=
  (Nat.leb 9 a && Nat.leb a 13) || (Nat.leb 28 a && Nat.leb a 32).

Definition blank2 (a b : nat) : bool :=
  Nat.eqb a 194 && (Nat.eqb b 133 || Nat.eqb b 160).

Definition blank3 (a b c : nat) : bool :=
  (Nat.eqb a 225 && Nat.eqb b 154 && Nat.eqb c 128)
  || (Nat.eqb a 226 && Nat.eqb b 128
      && ((Nat.leb 128 c && Nat.leb c 138)
          || Nat.eqb c 168 || Nat.eqb c 169 || Nat.eqb c 175))
  || (Nat.eqb a 226 && Nat.eqb b 129 && Nat.eqb c 159)
  || (Nat.eqb a 227 && Nat.eqb b 128 && Nat.eqb c 128).

(** White space taken off the front of [s]; with [backwards] the bytes of
    [s] are read last byte first, as they are when [s] is a reversed line. *)
Fixpoint drop_blanks (backwards : bool) (s : string) : string :=
  match s with
  | EmptyString => EmptyString
  | String x s1 =>
      if blank1 (nat_of_ascii x) then drop_blanks backwards s1
      else
        match s1 with
        | EmptyString => s
        | String y s2 =>
            if (if backwards then blank2 (nat_of_ascii y) (nat_of_ascii x)
                else blank2 (nat_of_ascii x) (nat_of_ascii y))
            then drop_blanks backwards s2
            else
              match s2 with
              | EmptyString => s
              | String z s3 =>
                  if (if backwards
                      then blank3 (nat_of_ascii z) (nat_of_ascii y) (nat_of_ascii x)
                      else blank3 (nat_of_ascii x) (nat_of_ascii y) (nat_of_ascii z))
                  then drop_blanks backwards s3
                  else s
              end
        end
  end.

Fixpoint reverse_onto (acc s : string) : string :=
  match s with
  | EmptyString => acc
  | String c s' => reverse_onto (String c acc) s'
  end.

Definition reverse (s : string) : string := reverse_onto EmptyString s.

(** [s.lstrip()] *)
Definition lstrip (s : string) : string := drop_blanks false s.

(** [s.rstrip()] *)
Definition rstrip (s : string) : string := reverse (drop_blanks true (reverse s)).

(** [s.strip()] *)
Definition strip (s : string) : string := rstrip (lstrip s).

End Text.

(** [p.resolve()] on a file system without symbolic links: every [..]
    drops the component before it, and stays put at the root. *)
Fixpoint resolve_from (done_rev : list string) (todo : path) : path :=
  match todo with
  | [] => rev done_rev
  | c :: rest =>
      if String.eqb c ".." then resolve_from (tl done_rev) rest
      else resolve_from (c :: done_rev) rest
  end.

Definition resolve (p : path) : path := resolve_from [] p.

(** What shows on the terminal: the prompts of [input] and the lines
    [main] logs itself. *)
Inductive console_event : Type :=
| Prompt (text : string)
| Warned (text : string)
| Informed (text : string)
| Succeeded (download : path)
| Failed (text : string).

(** How [main] ends: it returns, [input] meets the end of the input
    ([EOFError]), or an exception of the downloader escapes. *)
Inductive main_outcome : Type :=
| Finished
| EndOfInput
| Crashed (e : exn).

Definition url_prompt : string := "Enter SoundCloud playlist URL: ".
Definition dir_prompt : string := "Enter output directory (default: output): ".
Definition zip_prompt : string := "Do you want to zip the downloaded files? (y/n): ".
Definition invalid_url : string :=
  "Invalid URL. Please enter a valid SoundCloud playlist URL.".
Definition invalid_answer : string :=
  "Invalid input. Please enter 'y' for yes or 'n' for no.".

(** Lines 207 to 211: ask until [validate_url] accepts a line.  The result
    is the accepted line, if the input lasted that long, with the lines
    left to read and what was shown. *)
Fixpoint ask_url (validate_url : string -> bool) (stdin : list string)
  : option string * list string * list console_event :=
  match stdin with
  | [] => (None, [], [Prompt url_prompt])
  | playlist_url :: rest =>
      if validate_url playlist_url then (Some playlist_url, rest, [Prompt url_prompt])
      else
        let '(answer, rest', shown) := ask_url validate_url rest in
        (answer, rest', Prompt url_prompt :: Warned invalid_url :: shown)
  end.

(** Lines 221 to 226: ask until the answer, in lower case, is [y] or [n]. *)
Fixpoint ask_zip (stdin : list string)
  : option bool * list string * list console_event :=
  match stdin with
  | [] => (None, [], [Prompt zip_prompt])
  | line :: rest =>
      let should_zip := Text.lower line in
      if String.eqb should_zip "y" || String.eqb should_zip "n"
      then (Some (String.eqb should_zip "y"), rest, [Prompt zip_prompt])
      else
        let '(answer, rest', shown) := ask_zip rest in
        (answer, rest', Prompt zip_prompt :: Warned invalid_answer :: shown)
  end.

(** Lines 214 to 218: the directory the answer stands for. *)
Definition chosen_directory (cwd : path) (answer : string) : path :=
  let output_dir_input :=
    if Str.is_empty (Text.strip answer) then "output" else Text.strip answer in
  resolve (Path.joinpath cwd output_dir_input).

(** [main], run in working directory [cwd] on the input lines [stdin].
    [validate_url] is the helper of [utils.py]. *)
Definition main (env : environment) (validate_url : string -> bool) (cwd : path)
           (stdin : list string) (w : world)
  : main_outcome * list console_event * world :=
  match ask_url validate_url stdin with
  | (None, _, shown) => (EndOfInput, shown, w)
  | (Some playlist_url, stdin1, shown1) =>
      match stdin1 with
      | [] => (EndOfInput, shown1 ++ [Prompt dir_prompt], w)
      | answer :: stdin2 =>
          let output_dir := chosen_directory cwd answer in
          match mkdir_parents output_dir w with
          | (Raised e, w1) => (Crashed e, shown1 ++ [Prompt dir_prompt], w1)
          | (Returned _, w1) =>
              match ask_zip stdin2 with
              | (None, _, shown2) =>
                  (EndOfInput, shown1 ++ [Prompt dir_prompt] ++ shown2, w1)
              | (Some should_zip, _, shown2) =>
                  let shown := shown1 ++ [Prompt dir_prompt] ++ shown2
                               ++ [Informed "Downloading now please wait..."] in
                  match download_playlist env playlist_url output_dir 3
                                          default_min_delay default_max_delay
                                          should_zip w1 with
                  | (Returned (Some download), w2) =>
                      (Finished, shown ++ [Succeeded download], w2)
                  | (Returned None, w2) =>
                      (Finished, shown ++ [Failed "Failed to download playlist."], w2)
                  | (Raised e, w2) => (Crashed e, shown, w2)
                  end
              end
          end
      end
  end.

(* ===================================================================== *)
(** ** The vocabulary of the properties *)
(* ===================================================================== *)

(** *** Playlist entries *)

(** An entry lacks a field when the field is absent, null or empty. *)
Definition lacks (e : pyval) (k : string) : bool := negb (truthy (entry_get e k)).

(** A well-formed entry: a structured record with a resolvable URL (its
    page URL or, failing that, its plain URL), a title and an identifier. *)
Definition well_formed (e : pyval) : bool :=
  is_dict e
  && negb (lacks e "webpage_url" && lacks e "url")
  && negb (lacks e "title")
  && negb (lacks e "id").

(** The [Track] a well-formed entry stands for. *)
Definition track_of (e : pyval) : Track.t :=
  {| Track.id := entry_get e "id";
     Track.title := entry_get e "title";
     Track.artist :=
       if truthy (entry_get e "uploader") then entry_get e "uploader"
       else if truthy (entry_get e "uploader_id") then entry_get e "uploader_id"
       else VStr EmptyString;
     Track.url :=
       if truthy (entry_get e "webpage_url") then entry_get e "webpage_url"
       else entry_get e "url" |}.

(** What the extractor has to deliver for [get_playlist_info] to build a
    [Playlist]: a record with an identifier, a title and iterable entries. *)
Definition delivers (env : environment) (playlist_url : string)
           (pid ptitle : pyval) (raw : list pyval) : Prop :=
  exists info,
    extract_info env (VStr playlist_url) = Returned (VDict info)
    /\ py_iter (py_or (dict_get info "entries") (VList [])) = Returned raw
    /\ assoc "id" info = Some pid
    /\ assoc "title" info = Some ptitle.

(** *** The two phases of a track download *)

(** The probe phase fails with [e]: either of its two extractor calls
    raises it. *)
Definition probe_fails (env : environment) (track : Track.t) (e : exn) : Prop :=
  extract_info env (Track.url track) = Raised e
  \/ exists info,
      extract_info env (Track.url track) = Returned info
      /\ prepare_filename env info = Raised e.

(** The probe phase proposes [filename]. *)
Definition probe_gives (env : environment) (track : Track.t) (filename : string) : Prop :=
  exists info,
    extract_info env (Track.url track) = Returned info
    /\ prepare_filename env info = Returned filename.

(** The path the fetch phase is told to write to. *)
Definition target_of (env : environment) (output_dir : path) (filename : string) : path :=
  Path.joinpath output_dir (clean_filename env filename).

(** The fetch phase, started in file system [fs], ends with outcome [o] and
    leaves file system [fs']. *)
Definition fetch_ends (env : environment) (track : Track.t) (output_dir : path)
           (filename : string) (fs : filesystem) (o : outcome unit) (fs' : filesystem)
  : Prop :=
  download env (Path.to_str (target_of env output_dir filename)) (Track.url track) fs
  = (o, fs').

(** *** Finding the downloaded file *)

(** The target with its final suffix replaced by [.mp3] (appended when the
    name has no suffix). *)
Definition mp3_of (target : path) : path :=
  Path.parent target ++ [(Path.stem target ++ ".mp3")%string].

(** The file [download_track] settles on once the fetch is over: the [.mp3]
    path if it exists, else the target itself if it exists, else the first
    entry of the directory, in listing order, whose stem starts with the
    sanitized name. *)
Definition expected_file (fs : filesystem) (output_dir : path) (clean_name : string)
           (target : path) : option path :=
  if FS.exists_ fs (mp3_of target) then Some (mp3_of target)
  else if FS.exists_ fs target then Some target
  else find (fun f => Str.startswith (Path.stem f) clean_name) (FS.children fs output_dir).

(** The looks at the file system that lead there, in order; each later one
    is taken only when the earlier ones found nothing. *)
Definition expected_checks (fs : filesystem) (output_dir target : path) : list event :=
  Stat (mp3_of target)
  :: (if FS.exists_ fs (mp3_of target) then []
      else Stat target
           :: (if FS.exists_ fs target then [] else [Scan output_dir])).

(** The resolution as the specification words it: the last resort is a scan
    for an entry whose *name* starts with the sanitized stem. *)
Definition claimed_file (fs : filesystem) (output_dir : path) (sanitized_stem : string)
           (target : path) : option path :=
  if FS.exists_ fs (mp3_of target) then Some (mp3_of target)
  else if FS.exists_ fs target then Some target
  else find (fun f => Str.startswith (Path.name f) sanitized_stem)
            (FS.children fs output_dir).

Definition is_log (ev : event) : Prop :=
  match ev with Log _ _ => True | _ => False end.

(** *** The completed tasks *)

(** The file a finished task hands over, if any. *)
Definition file_of (future : outcome (option path)) : list path :=
  match future with
  | Returned (Some f) => [f]
  | _ => []
  end.

(** The task came back: it returned a file or [None]. *)
Definition came_back (future : outcome (option path)) : Prop :=
  exists r, future = Returned r.

(** A politeness delay: a [Sleep] of a length between the two bounds. *)
Definition is_delay (min_delay max_delay : Z) (ev : event) : Prop :=
  match ev with
  | Sleep d => (inject_Z (Z.min min_delay max_delay) <= d
                /\ d <= inject_Z (Z.max min_delay max_delay))%Q
  | _ => False
  end.


(** [K] of the spec: the tasks that returned no file. *)
Definition failures (futures : list (outcome (option path))) : nat :=
  List.length (List.filter (fun o => match o with Returned None => true | _ => false end)
                           futures).

(** What a run of [download_playlist] goes through before it looks at the
    results: the preparation yields the playlist and its directory, the
    pool accepts its width, and the tasks, in completion order, end with
    [futures], leaving world [w2]. *)
Definition tasks_end (env : environment) (playlist_url : string) (output_dir : path)
           (max_workers : Z) (w : world)
           (playlist : Playlist.t) (playlist_name : string) (playlist_dir : path)
           (futures : list (outcome (option path))) (w2 : world) : Prop :=
  exists w1,
    prepare env playlist_url output_dir w
    = (Returned (playlist, playlist_name, playlist_dir), w1)
    /\ (0 < max_workers)%Z
    /\ run_tasks env (as_completed env (Playlist.tracks playlist)) playlist_dir w1
       = (Returned futures, w2).

(** *** Sanitized names and archive members *)

(** A name is tidy when it holds no unsafe character and no blank
    directly after white space ([prev] describes what came before). *)
Fixpoint tidy (prev : bool) (s : string) : bool :=
  match s with
  | EmptyString => true
  | String c s' =>
      negb (Utils.unsafe_char c)
      && (if Utils.is_space c then negb prev && tidy true s' else tidy false s')
  end.

(** The files as the archive names them. *)
Definition members_of (files : list path) (base_dir : path) : list path :=
  flat_map (fun f => match Path.relative_to f base_dir with
                     | Some r => [r]
                     | None => []
                     end) files.

(* ===================================================================== *)
(** ** Concrete collaborators, for running the code *)
(* ===================================================================== *)

Module Scenario.

Definition entry (tid title link : string) : pyval :=
  VDict [("id", VStr tid); ("title", VStr title);
         ("uploader", VStr "someone"); ("webpage_url", VStr link)].

(** A catalogue: the playlist behind [playlist_url] and, for each track
    URL, its metadata; every other URL is unavailable. *)
Fixpoint find_entry (link : pyval) (entries : list pyval) : option pyval :=
  match entries with
  | [] => None
  | e :: rest =>
      match link, entry_get e "webpage_url" with
      | VStr a, VStr b => if String.eqb a b then Some e else find_entry link rest
      | _, _ => find_entry link rest
      end
  end.

Definition playlist_url : string := "https://soundcloud.com/someone/sets/mix".

Definition catalogue_extract_info (title : pyval) (entries available : list pyval)
           (link : pyval) : outcome pyval :=
  match link with
  | VStr l =>
      if String.eqb l playlist_url
      then Returned (VDict [("id", VStr "77"); ("title", title);
                            ("entries", VList entries)])
      else match find_entry link available with
           | Some e => Returned e
           | None => Raised (mk_exn DownloadError "track is not available")
           end
  | _ => Raised (mk_exn DownloadError "unsupported URL")
  end.

(** The output template of the downloader is the bare title. *)
Definition title_filename (info : pyval) : outcome string :=
  match entry_get info "title" with
  | VStr s => Returned s
  | _ => Raised (mk_exn TypeError "no title")
  end.

(** A fetch that always works: the audio lands next to the output
    template, with the extension of the target codec appended. *)
Definition fetch_mp3 (outtmpl : string) (link : pyval) (fs : filesystem)
  : outcome unit * filesystem :=
  let target := Path.joinpath [] (outtmpl ++ ".mp3") in
  match link with
  | VStr l => (Returned tt, FS.write fs target (Media l))
  | _ => (Raised (mk_exn DownloadError "unsupported URL"), fs)
  end.

(** A fetch that reports success and writes nothing. *)
Definition fetch_nothing (outtmpl : string) (link : pyval) (fs : filesystem)
  : outcome unit * filesystem := (Returned tt, fs).

(** A fetch the remote side refuses. *)
Definition fetch_refused (outtmpl : string) (link : pyval) (fs : filesystem)
  : outcome unit * filesystem :=
  (Raised (mk_exn DownloadError "HTTP Error 403: Forbidden"), fs).

Definition make (title : pyval) (entries available : list pyval)
           (fetch : string -> pyval -> filesystem -> outcome unit * filesystem)
  : environment :=
  {| extract_info := catalogue_extract_info title entries available;
     prepare_filename := title_filename;
     download := fetch;
     clean_filename := Utils.clean_filename;
     create_zip := Utils.create_zip;
     as_completed := fun tracks => tracks;
     random_bits := fun i => N.of_nat i |}.

Definition empty_world : world := mk_world [] [] 0.

Definition output : path := ["home"; "user"; "output"].

Definition track_a : pyval := entry "1" "Intro" "https://soundcloud.com/someone/intro".
Definition track_b : pyval := entry "2" "Outro" "https://soundcloud.com/someone/outro".
(** A second upload carrying the title of [track_a]. *)
Definition track_a' : pyval := entry "3" "Intro" "https://soundcloud.com/other/intro".

Definition unavailable : exn := mk_exn DownloadError "track is not available".
Definition refused : exn := mk_exn DownloadError "HTTP Error 403: Forbidden".

(** An entry without identifier, as left by a removed track. *)
Definition removed : pyval :=
  VDict [("title", VStr "Gone"); ("webpage_url", VStr "https://soundcloud.com/someone/gone")].

Definition vol1 : pyval := entry "9" "Vol.1" "https://soundcloud.com/someone/vol-1".

(** A music directory that holds one file, the raw download of another
    track. *)
Definition music : path := ["music"].
Definition music_world : world :=
  mk_world [(music, Dir);
            (music ++ ["Vol.10"], File (Media "https://soundcloud.com/someone/vol-10"))]
           [] 0.

End Scenario.

(** Runs on concrete playlists. *)
Module Runs.
Import Scenario.

(** The playlist titled [Mix] as [get_playlist_info] builds it. *)
Definition mix (entries : list pyval) : Playlist.t :=
  Playlist.mk (VStr "77") (VStr "Mix") (map track_of entries).

Definition mix_dir : path := output ++ ["Mix"].

(** The world once [output] and [mix_dir] are made. *)
Definition prepared : world :=
  mk_world [(["home"], Dir); (["home"; "user"], Dir); (output, Dir); (mix_dir, Dir)]
           [Log DEBUG (DownloadingToDirectory output)] 0.

(** No track of the playlist is available. *)
Definition all_blocked : environment := make (VStr "Mix") [track_a; track_b] [] fetch_mp3.

(** Two uploads with the same title, both available. *)
Definition same_title : environment :=
  make (VStr "Mix") [track_a; track_a'] [track_a; track_a'] fetch_mp3.

Definition skipped (e : pyval) : event :=
  Log INFO (SkippingProbe (Track.title (track_of e)) (Track.url (track_of e)) unavailable).

Definition intro_mp3 : path := mix_dir ++ ["Intro.mp3"].

End Runs.

(** *** Tracks, questions and answers *)

(** The minimal fields of a [Track]: URL, title and identifier all count as
    true in Python's sense (present, not [None], not empty). *)
Definition has_minimal_fields (t : Track.t) : bool :=
  truthy (Track.url t) && truthy (Track.title t) && truthy (Track.id t).

(** The answer to the archive question is taken when, in lower case, it is
    [y] or [n]. *)
Definition is_yes_or_no (answer : string) : bool :=
  String.eqb (Text.lower answer) "y" || String.eqb (Text.lower answer) "n".

(** What a question shows when the lines [rejected] are turned down before
    one is taken: the prompt and the warning for each, then the prompt. *)
Definition asked (prompt warning : string) (rejected : list string) : list console_event :=
  flat_map (fun _ => [Prompt prompt; Warned warning]) rejected ++ [Prompt prompt].

(** Collaborators for further runs. *)
Module Cases.

Definition interrupt : exn := mk_exn KeyboardInterrupt "interrupted by the user".

(** The user interrupts every metadata call. *)
Definition interrupted : environment :=
  {| extract_info := fun _ => Raised interrupt;
     prepare_filename := Scenario.title_filename;
     download := Scenario.fetch_mp3;
     clean_filename := Utils.clean_filename;
     create_zip := Utils.create_zip;
     as_completed := fun tracks => tracks;
     random_bits := fun i => N.of_nat i |}.

(** The playlist resolves, its two tracks are available; the user
    interrupts the metadata call for the second one. *)
Definition interrupted_at_outro : environment :=
  {| extract_info :=
       fun link =>
         match link with
         | VStr "https://soundcloud.com/someone/outro" => Raised interrupt
         | _ => Scenario.catalogue_extract_info (VStr "Mix")
                  [Scenario.track_a; Scenario.track_b] [Scenario.track_a] link
         end;
     prepare_filename := Scenario.title_filename;
     download := Scenario.fetch_mp3;
     clean_filename := Utils.clean_filename;
     create_zip := Utils.create_zip;
     as_completed := fun tracks => tracks;
     random_bits := fun i => N.of_nat i |}.

(** Both tracks of the playlist are available. *)
Definition both : environment :=
  Scenario.make (VStr "Mix") [Scenario.track_a; Scenario.track_b]
                [Scenario.track_a; Scenario.track_b] Scenario.fetch_mp3.

(** Only the first track of the playlist is available. *)
Definition intro_only : environment :=
  Scenario.make (VStr "Mix") [Scenario.track_a; Scenario.track_b]
                [Scenario.track_a] Scenario.fetch_mp3.

(** The extractor answers every URL with the record [info]. *)
Definition answering (info : list (string * pyval)) : environment :=
  {| extract_info := fun _ => Returned (VDict info);
     prepare_filename := Scenario.title_filename;
     download := Scenario.fetch_mp3;
     clean_filename := Utils.clean_filename;
     create_zip := Utils.create_zip;
     as_completed := fun tracks => tracks;
     random_bits := fun i => N.of_nat i |}.

Definition outro_mp3 : path := Runs.mix_dir ++ ["Outro.mp3"].

Definition music_dir_only : world := mk_world [(Scenario.music, Dir)] [] 0.

(** The files once both tracks are downloaded, and once the track titled
    [Intro] alone is. *)
Definition files_of_both : filesystem :=
  fs_of Runs.prepared
  ++ [(Runs.intro_mp3, File (Media "https://soundcloud.com/someone/intro"));
      (outro_mp3, File (Media "https://soundcloud.com/someone/outro"))].

Definition files_of_intro : filesystem :=
  fs_of Runs.prepared
  ++ [(Runs.intro_mp3, File (Media "https://soundcloud.com/other/intro"))].

Definition mix_zip : path := Scenario.output ++ ["Mix.zip"].


(** The track is available, the fetch reports success and writes nothing. *)
Definition silent : environment :=
  Scenario.make (VStr "Mix") [Scenario.track_a] [Scenario.track_a] Scenario.fetch_nothing.

(** A playlist and a track whose titles hold nothing but a question mark. *)
Definition question_mark : pyval :=
  Scenario.entry "5" "?" "https://soundcloud.com/someone/question".

Definition unnamed : environment :=
  Scenario.make (VStr "?") [question_mark] [question_mark] Scenario.fetch_nothing.

(** The answer that consists of one no-break space, U+00A0. *)
Definition no_break_space : string :=
  String (ascii_of_nat 194) (String (ascii_of_nat 160) EmptyString).

(** A stand-in for [validate_url]: the line names a SoundCloud address. *)
Definition on_soundcloud (line : string) : bool :=
  Str.startswith line "https://soundcloud.com/".

Definition home : path := ["home"; "user"].

(** The files once [main] has made the output directory. *)
Definition output_made : filesystem :=
  [(["home"], Dir); (["home"; "user"], Dir); (Scenario.output, Dir)].

End Cases.

(** Brings a world built by a run of statements into the shape
    [mk_world fs (trace ++ events) draws]. *)
Ltac world_shape :=
  cbn [fs_of trace_of draws_of fst snd];
  rewrite <- ?app_assoc; cbn [app];
  try reflexivity.

(* ===================================================================== *)
(** ** Properties of file name sanitization *)
(* ===================================================================== *)

Module SanitizeFacts.
Import Utils.

Lemma space_safe_is_blank c :
  is_space c = true -> unsafe_char c = false -> c = " "%char.
Proof.
  unfold is_space, unsafe_char, is_control.
  destruct (Ascii.eqb_spec c " ") as [-> | _]; [reflexivity |].
  cbn [orb]. intros Hrange Hsafe.
  apply andb_prop in Hrange as [Hlo Hhi].
  apply Nat.leb_le in Hhi.
  apply orb_false_elim in Hsafe as [Hctl _].
  apply orb_false_elim in Hctl as [Hlt _].
  apply Nat.ltb_ge in Hlt. lia.
Qed.

Lemma strip_unsafe_kept s :
  Str.forallb (fun c => is_space c || negb (unsafe_char c)) (strip_unsafe s) = true.
Proof.
  unfold strip_unsafe.
  induction s as [| c s IH]; cbn; [reflexivity |].
  destruct (is_space c || negb (unsafe_char c)) eqn:K; cbn; [rewrite K |]; exact IH.
Qed.

Lemma collapse_ws_tidy s :
  Str.forallb (fun c => is_space c || negb (unsafe_char c)) s = true ->
  forall prev, tidy prev (collapse_ws prev s) = true.
Proof.
  induction s as [| c s IH]; cbn; intros H prev; [reflexivity |].
  apply andb_prop in H as [Hc Hs].
  destruct (is_space c) eqn:Sp.
  - destruct prev; [apply IH, Hs |].
    cbn. apply IH, Hs.
  - cbn in Hc. cbn. rewrite Sp.
    apply negb_true_iff in Hc. rewrite Hc. cbn. apply IH, Hs.
Qed.

Lemma tidy_take n : forall s prev, tidy prev s = true -> tidy prev (Str.take n s) = true.
Proof.
  induction n as [| n IH]; intros [| c s] prev H; cbn; try reflexivity.
  cbn in H. apply andb_prop in H as [Hc Hs]. rewrite Hc. cbn.
  destruct (is_space c).
  - apply andb_prop in Hs as [Hp Hs]. rewrite Hp. cbn. apply IH, Hs.
  - apply IH, Hs.
Qed.

Lemma tidy_safe s : forall prev,
  tidy prev s = true -> Str.forallb (fun c => negb (unsafe_char c)) s = true.
Proof.
  induction s as [| c s IH]; cbn; intros prev H; [reflexivity |].
  apply andb_prop in H as [Hc Hs]. rewrite Hc. cbn.
  destruct (is_space c).
  - apply andb_prop in Hs as [_ Hs]. exact (IH _ Hs).
  - exact (IH _ Hs).
Qed.

Lemma tidy_strip_unsafe s : forall prev, tidy prev s = true -> strip_unsafe s = s.
Proof.
  unfold strip_unsafe.
  induction s as [| c s IH]; cbn; intros prev H; [reflexivity |].
  apply andb_prop in H as [Hc Hs]. rewrite Hc, orb_true_r.
  f_equal. destruct (is_space c).
  - apply andb_prop in Hs as [_ Hs]. exact (IH _ Hs).
  - exact (IH _ Hs).
Qed.

Lemma tidy_collapse_ws s : forall prev, tidy prev s = true -> collapse_ws prev s = s.
Proof.
  induction s as [| c s IH]; cbn; intros prev H; [reflexivity |].
  apply andb_prop in H as [Hc Hs].
  destruct (is_space c) eqn:Sp.
  - apply andb_prop in Hs as [Hp Hs].
    apply negb_true_iff in Hp, Hc. subst prev.
    rewrite (space_safe_is_blank c Sp Hc). f_equal. apply IH, Hs.
  - f_equal. apply IH, Hs.
Qed.

Lemma take_take n : forall s, Str.take n (Str.take n s) = Str.take n s.
Proof.
  induction n as [| n IH]; intros [| c s]; cbn; try reflexivity.
  now rewrite IH.
Qed.

Lemma take_length n : forall s, String.length (Str.take n s) <= n.
Proof.
  induction n as [| n IH]; intros [| c s]; cbn; try lia.
  specialize (IH s). lia.
Qed.

Lemma clean_filename_with_tidy n s : tidy false (clean_filename_with n s) = true.
Proof.
  unfold clean_filename_with.
  apply tidy_take, collapse_ws_tidy, strip_unsafe_kept.
Qed.

(** C8 (file name sanitization).  [clean_filename] is a total function of
    its argument alone, here for every maximum length and in particular
    for the one in force: sanitizing a sanitized name changes nothing,
    no sanitized name holds a character of the unsafe set, and none is
    longer than the maximum. *)
Theorem clean_filename_idempotent_and_safe :
  forall (max_length : nat) (filename : string),
    let cleaned := clean_filename_with max_length filename in
    clean_filename_with max_length cleaned = cleaned
    /\ Str.forallb (fun c => negb (unsafe_char c)) cleaned = true
    /\ String.length cleaned <= max_length
    /\ clean_filename (clean_filename filename) = clean_filename filename
    /\ Str.forallb (fun c => negb (unsafe_char c)) (clean_filename filename) = true.
Proof.
  intros n s cleaned.
  assert (idem : forall m t,
             clean_filename_with m (clean_filename_with m t) = clean_filename_with m t).
  { intros m t.
    pose proof (clean_filename_with_tidy m t) as T.
    unfold clean_filename_with at 1.
    rewrite (tidy_strip_unsafe _ _ T), (tidy_collapse_ws _ _ T).
    unfold clean_filename_with. apply take_take. }
  repeat split.
  - apply idem.
  - exact (tidy_safe _ _ (clean_filename_with_tidy n s)).
  - apply take_length.
  - apply idem.
  - exact (tidy_safe _ _ (clean_filename_with_tidy _ s)).
Qed.

End SanitizeFacts.

(* ===================================================================== *)
(** ** Properties of [get_playlist_info] *)
(* ===================================================================== *)

Module PlaylistInfoFacts.

Lemma truthy_py_or a b : truthy (py_or a b) = truthy a || truthy b.
Proof. unfold py_or. destruct (truthy a) eqn:E; [exact E | reflexivity]. Qed.

Lemma entry_track_spec e :
  entry_track e = if well_formed e then Some (track_of e) else None.
Proof.
  destruct e; try reflexivity.
  unfold entry_track, well_formed, track_of, lacks, py_or. cbn [is_dict andb].
  generalize (entry_get (VDict kvs) "webpage_url") (entry_get (VDict kvs) "url")
             (entry_get (VDict kvs) "title") (entry_get (VDict kvs) "id")
             (entry_get (VDict kvs) "uploader") (entry_get (VDict kvs) "uploader_id").
  intros pw pu pt pi pa pb.
  destruct (truthy pw) eqn:W, (truthy pu) eqn:U, (truthy pt) eqn:T,
           (truthy pi) eqn:I, (truthy pa) eqn:A, (truthy pb) eqn:B;
    cbn [andb negb orb]; rewrite ?W, ?U, ?A, ?B; reflexivity.
Qed.

Lemma well_formed_is_dict e : well_formed e = true -> is_dict e = true.
Proof. unfold well_formed. destruct (is_dict e); [reflexivity | discriminate]. Qed.

(** The loop appends, in order, the tracks of the well-formed entries. *)
Lemma fold_append_track entries : forall tracks,
  fold_left append_track entries tracks
  = tracks ++ map track_of (List.filter well_formed entries).
Proof.
  induction entries as [| e entries IH]; intros tracks; cbn.
  - now rewrite app_nil_r.
  - rewrite IH. unfold append_track. rewrite entry_track_spec.
    destruct (well_formed e); cbn; [now rewrite <- app_assoc | reflexivity].
Qed.

Lemma filter_well_formed_dicts raw :
  List.filter well_formed (List.filter is_dict raw) = List.filter well_formed raw.
Proof.
  induction raw as [| e raw IH]; cbn; [reflexivity |].
  destruct (is_dict e) eqn:D; cbn; rewrite IH.
  - reflexivity.
  - destruct (well_formed e) eqn:W; [| reflexivity].
    apply well_formed_is_dict in W. congruence.
Qed.

(** [get_playlist_info] evaluated: it touches neither the file system
    nor the log. *)
Lemma get_playlist_info_eq env playlist_url pid ptitle raw w :
  delivers env playlist_url pid ptitle raw ->
  get_playlist_info env playlist_url w
  = (Returned (Playlist.mk pid ptitle (map track_of (List.filter well_formed raw))), w).
Proof.
  intros (info & Hx & Hit & Hid & Hti).
  unfold get_playlist_info, bind, lift, ret, dict_item.
  rewrite Hx, Hit, Hid, Hti, fold_append_track, filter_well_formed_dicts.
  reflexivity.
Qed.

End PlaylistInfoFacts.

(** C3 (malformed entries are dropped, well-formed ones kept).  Whenever
    the extractor delivers a playlist record, [get_playlist_info] returns a
    [Playlist] whose tracks are exactly the tracks of the well-formed raw
    entries: every well-formed entry has its [Track] in the list, every
    track of the list comes from a well-formed entry, there is one track
    per well-formed entry, and an entry that is not a record, or lacks a
    URL, a title or an identifier, leaves the list as it is. *)
Theorem get_playlist_info_filters_entries :
  forall env playlist_url pid ptitle raw w,
    delivers env playlist_url pid ptitle raw ->
    exists tracks,
      get_playlist_info env playlist_url w
      = (Returned (Playlist.mk pid ptitle tracks), w)
      /\ (forall e, In e raw -> well_formed e = true -> In (track_of e) tracks)
      /\ (forall t, In t tracks ->
                    exists e, In e raw /\ well_formed e = true /\ t = track_of e)
      /\ List.length tracks = List.length (List.filter well_formed raw)
      /\ (forall e, well_formed e = false ->
                    forall tracks0, append_track tracks0 e = tracks0).
Proof.
  intros env playlist_url pid ptitle raw w D.
  exists (map track_of (List.filter well_formed raw)).
  split; [now apply PlaylistInfoFacts.get_playlist_info_eq |].
  split; [| split; [| split]].
  - intros e He Hw. apply in_map, filter_In. now split.
  - intros t Ht. apply in_map_iff in Ht as (e & <- & He).
    apply filter_In in He as [He Hw]. now exists e.
  - now rewrite length_map.
  - intros e Hw tracks0. unfold append_track.
    now rewrite PlaylistInfoFacts.entry_track_spec, Hw.
Qed.

(** C10 (order is preserved).  The track list is the subsequence of the raw
    entries that are well-formed, each turned into its [Track], in the
    order of the raw entries; it depends on the extractor's answer alone. *)
Theorem get_playlist_info_preserves_order :
  forall env playlist_url pid ptitle raw w,
    delivers env playlist_url pid ptitle raw ->
    get_playlist_info env playlist_url w
    = (Returned {| Playlist.id := pid;
                   Playlist.title := ptitle;
                   Playlist.tracks := map track_of (List.filter well_formed raw) |},
       w).
Proof.
  intros. now apply PlaylistInfoFacts.get_playlist_info_eq.
Qed.

(* ===================================================================== *)
(** ** Properties of [download_track] *)
(* ===================================================================== *)

Module DownloadTrackFacts.

Lemma probe_failure env track output_dir w e :
  is_Exception e = true ->
  probe_fails env track e ->
  download_track env track output_dir w
  = (Returned None,
     mk_world (fs_of w)
              (trace_of w ++ [Log INFO (SkippingProbe (Track.title track)
                                                     (Track.url track) e)])
              (draws_of w)).
Proof.
  intros He [Hx | (info & Hx & Hp)];
    unfold download_track, bind, try_except, lift, log, ret;
    rewrite Hx; [| rewrite Hp]; rewrite He; reflexivity.
Qed.

(** Past a successful probe, [download_track] is its fetch phase followed
    by the search for the file. *)
Lemma after_probe env track output_dir w filename :
  probe_gives env track filename ->
  download_track env track output_dir w
  = match download env (Path.to_str (target_of env output_dir filename))
                   (Track.url track) (fs_of w) with
    | (Returned _, fs') =>
        resolve_downloaded output_dir (clean_filename env filename)
                           (target_of env output_dir filename)
                           (mk_world fs' (trace_of w) (draws_of w))
    | (Raised e, fs') =>
        if is_Exception e
        then (Returned None,
              mk_world fs'
                       (trace_of w ++ [Log INFO (SkippingDownload (Track.title track) e)])
                       (draws_of w))
        else (Raised e, mk_world fs' (trace_of w) (draws_of w))
    end.
Proof.
  intros (info & Hx & Hp).
  unfold download_track, bind, try_except, lift, log, ret, with_fs, target_of.
  rewrite Hx, Hp.
  destruct (download env _ _ _) as [[u | e] fs']; [reflexivity |].
  destruct (is_Exception e); reflexivity.
Qed.

Lemma fetch_failure env track output_dir w filename e fs' :
  is_Exception e = true ->
  probe_gives env track filename ->
  fetch_ends env track output_dir filename (fs_of w) (Raised e) fs' ->
  download_track env track output_dir w
  = (Returned None,
     mk_world fs'
              (trace_of w ++ [Log INFO (SkippingDownload (Track.title track) e)])
              (draws_of w)).
Proof.
  intros He Hp Hf. rewrite (after_probe env track output_dir w filename Hp).
  unfold fetch_ends in Hf. rewrite Hf, He. reflexivity.
Qed.

End DownloadTrackFacts.

(** C1 (per-track failures stay inside [download_track]).  For every track
    and target directory: if the probe phase raises a failure (an
    [Exception], as every extractor error is), or the probe succeeds and
    the fetch phase raises one, [download_track] returns [None] rather than
    raising, having logged one [Skipping] line at level INFO; what the
    failed fetch left on disk stays there. *)
Theorem download_track_isolates_failures :
  forall env track output_dir w e,
    is_Exception e = true ->
    (probe_fails env track e ->
     download_track env track output_dir w
     = (Returned None,
        mk_world (fs_of w)
                 (trace_of w ++ [Log INFO (SkippingProbe (Track.title track)
                                                        (Track.url track) e)])
                 (draws_of w)))
    /\ (forall filename fs',
          probe_gives env track filename ->
          fetch_ends env track output_dir filename (fs_of w) (Raised e) fs' ->
          download_track env track output_dir w
          = (Returned None,
             mk_world fs'
                      (trace_of w ++ [Log INFO (SkippingDownload (Track.title track) e)])
                      (draws_of w))).
Proof.
  intros env track output_dir w e He. split.
  - now apply DownloadTrackFacts.probe_failure.
  - intros filename fs'. now apply DownloadTrackFacts.fetch_failure.
Qed.

Module ResolveFacts.

Lemma head_filter_find {A} (f : A -> bool) (l : list A) :
  match List.filter f l with x :: _ => Some x | [] => None end = find f l.
Proof.
  induction l as [| a l IH]; cbn; [reflexivity |].
  destruct (f a); [reflexivity | exact IH].
Qed.

Lemma with_suffix_mp3 target :
  Path.name target <> EmptyString ->
  Path.with_suffix target ".mp3" = Returned (mp3_of target).
Proof.
  intros Hn. unfold Path.with_suffix, mp3_of, Path.stem.
  destruct (Path.name target) eqn:N; [congruence | reflexivity].
Qed.

Lemma iterdir_dir fs d :
  FS.is_dir fs d = true -> FS.iterdir fs d = Returned (FS.children fs d).
Proof. intros H. unfold FS.iterdir. now rewrite H. Qed.

Lemma resolve_downloaded_eq output_dir clean_name target w :
  Path.name target <> EmptyString ->
  FS.is_dir (fs_of w) output_dir = true ->
  exists logs,
    resolve_downloaded output_dir clean_name target w
    = (Returned (expected_file (fs_of w) output_dir clean_name target),
       mk_world (fs_of w)
                (trace_of w ++ Sleep (1 # 2)
                           :: expected_checks (fs_of w) output_dir target ++ logs)
                (draws_of w))
    /\ Forall is_log logs.
Proof.
  intros Hn Hd.
  unfold resolve_downloaded, expected_file, expected_checks.
  unfold bind at 1. unfold sleep. cbn [Qle_bool Qnum Qden Z.mul Z.leb Z.compare Pos.mul].
  unfold bind at 1. unfold lift. rewrite (with_suffix_mp3 target Hn).
  unfold path_exists, iterdir, observe, read_fs, with_fs, log, ret, bind.
  cbn [fs_of trace_of draws_of].
  destruct (FS.exists_ (fs_of w) (mp3_of target)) eqn:E1.
  { eexists. split; [world_shape |].
    repeat constructor. }
  cbn [fs_of trace_of draws_of].
  destruct (FS.exists_ (fs_of w) target) eqn:E2.
  { eexists. split; [world_shape |].
    repeat constructor. }
  cbn [fs_of trace_of draws_of].
  rewrite (iterdir_dir _ _ Hd).
  rewrite <- (head_filter_find (fun f => Str.startswith (Path.stem f) clean_name)).
  destruct (List.filter _ (FS.children (fs_of w) output_dir)) as [| f rest].
  - eexists. split; [world_shape |].
    repeat constructor.
  - eexists. split; [world_shape |].
    repeat constructor.
Qed.

End ResolveFacts.

(** C7, as amended.  After a successful probe and fetch, with the target
    directory present and the sanitized path carrying a name,
    [download_track] first waits a fixed half second and then looks, in this
    order and only as far as needed, at the target with its suffix replaced
    by [.mp3], at the target as it is, and at the listing of the directory,
    from which it takes the first entry whose stem starts with the sanitized
    name; with no match it returns [None].  After the wait it only looks
    and logs. *)
Theorem download_track_resolves_file :
  forall env track output_dir w filename fs1,
    probe_gives env track filename ->
    fetch_ends env track output_dir filename (fs_of w) (Returned tt) fs1 ->
    Path.name (target_of env output_dir filename) <> EmptyString ->
    FS.is_dir fs1 output_dir = true ->
    exists logs,
      download_track env track output_dir w
      = (Returned (expected_file fs1 output_dir (clean_filename env filename)
                                 (target_of env output_dir filename)),
         mk_world fs1
                  (trace_of w
                   ++ Sleep (1 # 2)
                   :: expected_checks fs1 output_dir (target_of env output_dir filename)
                   ++ logs)
                  (draws_of w))
      /\ Forall is_log logs.
Proof.
  intros env track output_dir w filename fs1 Hp Hf Hn Hd.
  rewrite (DownloadTrackFacts.after_probe env track output_dir w filename Hp).
  unfold fetch_ends in Hf. rewrite Hf.
  exact (ResolveFacts.resolve_downloaded_eq output_dir (clean_filename env filename)
           (target_of env output_dir filename)
           (mk_world fs1 (trace_of w) (draws_of w)) Hn Hd).
Qed.

(** C7, as the specification states it, fails.  The fetch for the track
    titled [Vol.1] reports success and leaves no file; the directory holds
    [Vol.10].  Its name starts with the sanitized stem, whether that is read
    as the sanitized name [Vol.1] or as its stem [Vol], so the resolution as
    stated yields that file; [download_track] compares the entry's stem
    [Vol] with [Vol.1] and returns [None]. *)
Lemma download_track_scan_is_on_stems :
  let env := Scenario.make (VStr "Mix") [Scenario.vol1] [Scenario.vol1]
                           Scenario.fetch_nothing in
  let target := target_of env Scenario.music "Vol.1" in
  let fs := fs_of Scenario.music_world in
  fst (download_track env (track_of Scenario.vol1) Scenario.music Scenario.music_world)
  = Returned None
  /\ claimed_file fs Scenario.music "Vol.1" target = Some ["music"; "Vol.10"]
  /\ claimed_file fs Scenario.music (Path.stem_of "Vol.1") target = Some ["music"; "Vol.10"]
  /\ fst (download_track env (track_of Scenario.vol1) Scenario.music Scenario.music_world)
     <> Returned (claimed_file fs Scenario.music "Vol.1" target).
Proof.
  cbv zeta. repeat split; try (vm_compute; reflexivity).
  vm_compute. discriminate.
Qed.

Lemma download_track_resolves_file_witness :
  let env := Scenario.make (VStr "Mix") [Scenario.track_a] [Scenario.track_a]
                           Scenario.fetch_mp3 in
  let w := mk_world [(Scenario.music, Dir)] [] 0 in
  let fs1 := [(Scenario.music, Dir);
              (["music"; "Intro.mp3"], File (Media "https://soundcloud.com/someone/intro"))] in
  (probe_gives env (track_of Scenario.track_a) "Intro"
   /\ fetch_ends env (track_of Scenario.track_a) Scenario.music "Intro" (fs_of w)
                 (Returned tt) fs1
   /\ Path.name (target_of env Scenario.music "Intro") <> EmptyString
   /\ FS.is_dir fs1 Scenario.music = true)
  /\ exists logs,
      download_track env (track_of Scenario.track_a) Scenario.music w
      = (Returned (Some ["music"; "Intro.mp3"]),
         mk_world fs1 (Sleep (1 # 2) :: Stat ["music"; "Intro.mp3"] :: logs) 0)
      /\ Forall is_log logs.
Proof.
  cbv zeta.
  assert (Hp : probe_gives
                 (Scenario.make (VStr "Mix") [Scenario.track_a] [Scenario.track_a]
                                Scenario.fetch_mp3)
                 (track_of Scenario.track_a) "Intro").
  { exists Scenario.track_a. split; reflexivity. }
  assert (Hn : Path.name (target_of
                 (Scenario.make (VStr "Mix") [Scenario.track_a] [Scenario.track_a]
                                Scenario.fetch_mp3) Scenario.music "Intro") <> EmptyString).
  { vm_compute. discriminate. }
  split; [repeat split; solve [exact Hp | exact Hn | reflexivity] |].
  exact (download_track_resolves_file
           (Scenario.make (VStr "Mix") [Scenario.track_a] [Scenario.track_a]
                          Scenario.fetch_mp3)
           (track_of Scenario.track_a) Scenario.music
           (mk_world [(Scenario.music, Dir)] [] 0) "Intro"
           [(Scenario.music, Dir);
            (["music"; "Intro.mp3"], File (Media "https://soundcloud.com/someone/intro"))]
           Hp eq_refl Hn eq_refl).
Defined.

Lemma download_track_isolates_failures_witness :
  let blocked := Scenario.make (VStr "Mix") [Scenario.track_b] [] Scenario.fetch_mp3 in
  let refusing := Scenario.make (VStr "Mix") [Scenario.track_b] [Scenario.track_b]
                                Scenario.fetch_refused in
  let track := track_of Scenario.track_b in
  (is_Exception Scenario.unavailable = true
   /\ probe_fails blocked track Scenario.unavailable
   /\ download_track blocked track Scenario.music Scenario.music_world
      = (Returned None,
         mk_world (fs_of Scenario.music_world)
                  [Log INFO (SkippingProbe (Track.title track) (Track.url track)
                                           Scenario.unavailable)]
                  0))
  /\ (is_Exception Scenario.refused = true
      /\ probe_gives refusing track "Outro"
      /\ fetch_ends refusing track Scenario.music "Outro" (fs_of Scenario.music_world)
                    (Raised Scenario.refused) (fs_of Scenario.music_world)
      /\ download_track refusing track Scenario.music Scenario.music_world
         = (Returned None,
            mk_world (fs_of Scenario.music_world)
                     [Log INFO (SkippingDownload (Track.title track) Scenario.refused)]
                     0)).
Proof.
  cbv zeta. split.
  - split; [reflexivity |]. split; [left; reflexivity |].
    apply (proj1 (download_track_isolates_failures
                    (Scenario.make (VStr "Mix") [Scenario.track_b] [] Scenario.fetch_mp3)
                    (track_of Scenario.track_b) Scenario.music Scenario.music_world
                    Scenario.unavailable eq_refl)).
    left; reflexivity.
  - split; [reflexivity |].
    assert (Hp : probe_gives
                   (Scenario.make (VStr "Mix") [Scenario.track_b] [Scenario.track_b]
                                  Scenario.fetch_refused)
                   (track_of Scenario.track_b) "Outro").
    { exists Scenario.track_b. split; reflexivity. }
    split; [exact Hp |]. split; [reflexivity |].
    exact (proj2 (download_track_isolates_failures
                    (Scenario.make (VStr "Mix") [Scenario.track_b] [Scenario.track_b]
                                   Scenario.fetch_refused)
                    (track_of Scenario.track_b) Scenario.music Scenario.music_world
                    Scenario.refused eq_refl)
                 "Outro" (fs_of Scenario.music_world) Hp eq_refl).
Defined.

(* ===================================================================== *)
(** ** Properties of [download_playlist] *)
(* ===================================================================== *)

Module PlaylistFacts.

Lemma get_playlist_info_raises env playlist_url w e :
  extract_info env (VStr playlist_url) = Raised e ->
  get_playlist_info env playlist_url w = (Raised e, w).
Proof.
  intros Hx. unfold get_playlist_info, bind, lift. now rewrite Hx.
Qed.

Lemma prepare_raises env playlist_url output_dir w e fs1 :
  extract_info env (VStr playlist_url) = Raised e ->
  FS.mkdir_parents (fs_of w) output_dir = Returned fs1 ->
  prepare env playlist_url output_dir w
  = (Raised e,
     mk_world fs1 (trace_of w ++ [Log DEBUG (DownloadingToDirectory output_dir)])
              (draws_of w)).
Proof.
  intros Hx Hmk.
  unfold prepare, bind, mkdir_parents, update_fs, with_fs, log.
  rewrite Hmk. cbn [fs_of trace_of draws_of].
  now rewrite (get_playlist_info_raises _ _ _ e Hx).
Qed.

Lemma prepare_mkdir_raises env playlist_url output_dir w e :
  FS.mkdir_parents (fs_of w) output_dir = Raised e ->
  prepare env playlist_url output_dir w = (Raised e, w).
Proof.
  intros Hmk.
  unfold prepare, bind, mkdir_parents, update_fs, with_fs.
  rewrite Hmk. destruct w; reflexivity.
Qed.

Lemma download_playlist_prepare_raises env playlist_url output_dir
      max_workers min_delay max_delay should_zip w e w' :
  prepare env playlist_url output_dir w = (Raised e, w') ->
  download_playlist env playlist_url output_dir max_workers min_delay max_delay
                    should_zip w
  = (Raised e, w').
Proof.
  intros H. unfold download_playlist, bind. now rewrite H.
Qed.

End PlaylistFacts.

(** C6 (a failing playlist extraction is fatal).  If the extractor raises
    on the playlist URL, whatever the exception, [get_playlist_info] raises
    the same exception without touching anything, and [download_playlist]
    never returns a value: once the output directory is made it raises that
    very exception to its caller, no task having run. *)
Theorem playlist_extraction_failure_propagates :
  forall env playlist_url output_dir max_workers min_delay max_delay should_zip w e,
    extract_info env (VStr playlist_url) = Raised e ->
    get_playlist_info env playlist_url w = (Raised e, w)
    /\ (forall fs1,
          FS.mkdir_parents (fs_of w) output_dir = Returned fs1 ->
          download_playlist env playlist_url output_dir max_workers min_delay max_delay
                            should_zip w
          = (Raised e,
             mk_world fs1 (trace_of w ++ [Log DEBUG (DownloadingToDirectory output_dir)])
                      (draws_of w)))
    /\ (exists e' w',
          download_playlist env playlist_url output_dir max_workers min_delay max_delay
                            should_zip w
          = (Raised e', w')).
Proof.
  intros env playlist_url output_dir max_workers min_delay max_delay should_zip w e Hx.
  split; [now apply PlaylistFacts.get_playlist_info_raises |].
  split.
  - intros fs1 Hmk.
    apply PlaylistFacts.download_playlist_prepare_raises.
    now apply PlaylistFacts.prepare_raises.
  - destruct (FS.mkdir_parents (fs_of w) output_dir) as [fs1 | e'] eqn:Hmk.
    + exists e. eexists.
      apply PlaylistFacts.download_playlist_prepare_raises.
      exact (PlaylistFacts.prepare_raises env playlist_url output_dir w e fs1 Hx Hmk).
    + exists e', w.
      apply PlaylistFacts.download_playlist_prepare_raises.
      now apply PlaylistFacts.prepare_mkdir_raises.
Qed.

Lemma playlist_extraction_failure_propagates_witness :
  let env := Scenario.make (VStr "Mix") [] [] Scenario.fetch_mp3 in
  extract_info env (VStr "https://soundcloud.com/nobody/sets/none") = Raised
    (mk_exn DownloadError "track is not available")
  /\ get_playlist_info env "https://soundcloud.com/nobody/sets/none" Scenario.empty_world
     = (Raised (mk_exn DownloadError "track is not available"), Scenario.empty_world).
Proof.
  cbv zeta. split; [reflexivity |].
  exact (proj1 (playlist_extraction_failure_propagates
                  (Scenario.make (VStr "Mix") [] [] Scenario.fetch_mp3)
                  "https://soundcloud.com/nobody/sets/none" Scenario.output
                  default_max_workers default_min_delay default_max_delay false
                  Scenario.empty_world
                  (mk_exn DownloadError "track is not available") eq_refl)).
Defined.

(** *** The loop over the completed tasks *)

Module CollectFacts.

Lemma random_unit_range env i :
  (0 <= random_unit env i /\ random_unit env i < 1)%Q.
Proof.
  unfold random_unit.
  set (n := Z.of_N (N.modulo (random_bits env i) (2 ^ 53))).
  assert (Hn : (0 <= n < 2 ^ 53)%Z).
  { subst n. split; [apply N2Z.is_nonneg |].
    change (2 ^ 53)%Z with (Z.of_N (2 ^ 53)%N).
    apply N2Z.inj_lt, N.mod_lt. discriminate. }
  assert (Hpos : (0 < inject_Z (2 ^ 53))%Q).
  { change 0%Q with (inject_Z 0). rewrite <- Zlt_Qlt. reflexivity. }
  split.
  - apply Qle_shift_div_l; [exact Hpos |].
    rewrite Qmult_0_l. change 0%Q with (inject_Z 0). rewrite <- Zle_Qle. apply Hn.
  - apply Qlt_shift_div_r; [exact Hpos |].
    rewrite Qmult_1_l. rewrite <- Zlt_Qlt. apply Hn.
Qed.

(** [a + (b - a) * u] lies between [a] and [b] for [u] in the unit
    interval. *)
Lemma uniform_between (a b : Z) (u : Q) :
  (0 <= u)%Q -> (u < 1)%Q ->
  (inject_Z (Z.min a b) <= inject_Z a + (inject_Z b - inject_Z a) * u
   /\ inject_Z a + (inject_Z b - inject_Z a) * u <= inject_Z (Z.max a b))%Q.
Proof.
  intros H0 H1.
  destruct (Z.le_ge_cases a b) as [Hab | Hab].
  - rewrite (Z.min_l _ _ Hab), (Z.max_r _ _ Hab).
    rewrite Zle_Qle in Hab. split; nra.
  - rewrite (Z.min_r _ _ Hab), (Z.max_l _ _ Hab).
    rewrite Zle_Qle in Hab. split; nra.
Qed.

Lemma delay_nonneg (a b : Z) (d : Q) :
  (0 <= a)%Z -> (0 <= b)%Z -> (inject_Z (Z.min a b) <= d)%Q -> Qle_bool 0 d = true.
Proof.
  intros Ha Hb Hd. apply Qle_bool_iff.
  apply Qle_trans with (inject_Z (Z.min a b)); [| exact Hd].
  change 0%Q with (inject_Z 0). rewrite <- Zle_Qle. now apply Z.min_glb.
Qed.

(** When every task came back and the delay bounds are not negative, the
    loop returns: it appends the files in completion order, sleeps once
    per task, and leaves the file system alone. *)
Lemma collect_all_back env min_delay max_delay :
  (0 <= min_delay)%Z -> (0 <= max_delay)%Z ->
  forall futures downloaded_files w,
    Forall came_back futures ->
    exists delays,
      collect env futures min_delay max_delay downloaded_files w
      = (Returned (downloaded_files ++ flat_map file_of futures),
         mk_world (fs_of w) (trace_of w ++ delays)
                  (draws_of w + List.length futures))
      /\ List.length delays = List.length futures
      /\ Forall (is_delay min_delay max_delay) delays.
Proof.
  intros Hmin Hmax futures.
  induction futures as [| future rest IH]; intros acc w Hall.
  - exists []. cbn. rewrite !app_nil_r, Nat.add_0_r.
    destruct w; repeat split; constructor.
  - inversion Hall as [| ? ? [r ->] Hrest]; subst.
    pose proof (random_unit_range env (draws_of w)) as [Hu0 Hu1].
    pose proof (uniform_between min_delay max_delay _ Hu0 Hu1) as [Hlo Hhi].
    cbn [collect]. unfold bind at 1. unfold lift at 1.
    unfold bind at 1. unfold random_uniform at 1.
    unfold bind at 1. unfold sleep at 1.
    rewrite (delay_nonneg min_delay max_delay _ Hmin Hmax Hlo).
    cbn [fs_of trace_of draws_of].
    match goal with
    | |- context [collect env rest min_delay max_delay ?acc' ?w'] =>
        destruct (IH acc' w' Hrest) as (delays & Heq & Hlen & Hdel)
    end.
    eexists (_ :: delays).
    rewrite Heq. cbn [fs_of trace_of draws_of].
    split; [| split].
    + rewrite <- !app_assoc. cbn [app flat_map List.length].
      rewrite Nat.add_succ_r. cbn [Nat.add].
      destruct r as [f |]; cbn [file_of app]; [rewrite <- app_assoc |]; reflexivity.
    + cbn. now rewrite Hlen.
    + constructor; [| exact Hdel]. cbn. split; assumption.
Qed.

(** A task that raised makes the loop raise when its turn comes. *)
Lemma collect_raises_at_head env min_delay max_delay e rest downloaded_files w :
  collect env (Raised e :: rest) min_delay max_delay downloaded_files w = (Raised e, w).
Proof. reflexivity. Qed.

(** Every submitted task runs to its end. *)
Lemma run_tasks_total env playlist_dir tracks : forall w,
  exists futures w',
    run_tasks env tracks playlist_dir w = (Returned futures, w')
    /\ List.length futures = List.length tracks.
Proof.
  induction tracks as [| t rest IH]; intros w; cbn.
  - now exists [], w.
  - destruct (download_track env t playlist_dir w) as [future w1].
    destruct (IH w1) as (futures & w2 & Heq & Hlen).
    rewrite Heq. exists (future :: futures), w2. cbn. now rewrite Hlen.
Qed.

Lemma successes_count futures :
  Forall came_back futures ->
  List.length (flat_map file_of futures) = List.length futures - failures futures.
Proof.
  unfold failures.
  induction 1 as [| future rest [r ->] _ IH]; [reflexivity |].
  destruct r as [f |]; cbn [flat_map file_of app List.filter List.length].
  - rewrite IH.
    pose proof (filter_length_le
                  (fun o : outcome (option path) =>
                     match o with Returned None => true | _ => false end) rest).
    lia.
  - rewrite IH. cbn. reflexivity.
Qed.

(** [download_playlist] past its preparation. *)
Lemma download_playlist_eq env playlist_url output_dir max_workers min_delay max_delay
      should_zip w playlist playlist_name playlist_dir w1 futures w2 :
  prepare env playlist_url output_dir w
  = (Returned (playlist, playlist_name, playlist_dir), w1) ->
  (0 < max_workers)%Z ->
  run_tasks env (as_completed env (Playlist.tracks playlist)) playlist_dir w1
  = (Returned futures, w2) ->
  download_playlist env playlist_url output_dir max_workers min_delay max_delay
                    should_zip w
  = match collect env futures min_delay max_delay [] w2 with
    | (Returned downloaded_files, w3) =>
        finish env output_dir playlist_name playlist_dir should_zip downloaded_files w3
    | (Raised e, w3) => (Raised e, w3)
    end.
Proof.
  intros Hprep Hmw Hrun.
  unfold download_playlist. unfold bind at 1. rewrite Hprep.
  unfold bind at 1. unfold thread_pool.
  destruct (Z.leb_spec max_workers 0) as [Hle | _]; [lia |].
  unfold ret at 1. unfold bind at 1. rewrite Hrun.
  unfold bind at 1. reflexivity.
Qed.

End CollectFacts.

(** C5 (nothing downloaded is a result, not an exception).  When every
    task of the playlist returns [None] (or there is no task), with delay
    bounds that are not negative, [download_playlist] returns [None] whether
    or not archival was requested: it raises nothing, logs the error line
    last, and leaves the file system as the tasks left it, so no archive
    appears. *)
Theorem download_playlist_nothing_downloaded :
  forall env playlist_url output_dir max_workers min_delay max_delay should_zip w
         playlist playlist_name playlist_dir futures w2,
    tasks_end env playlist_url output_dir max_workers w
              playlist playlist_name playlist_dir futures w2 ->
    Forall (fun future => future = Returned None) futures ->
    (0 <= min_delay)%Z -> (0 <= max_delay)%Z ->
    exists delays,
      download_playlist env playlist_url output_dir max_workers min_delay max_delay
                        should_zip w
      = (Returned None,
         mk_world (fs_of w2)
                  (trace_of w2 ++ delays ++ [Log ERROR NoFilesDownloaded])
                  (draws_of w2 + List.length futures))
      /\ List.length delays = List.length futures
      /\ Forall (is_delay min_delay max_delay) delays
      /\ (forall e w',
            download_playlist env playlist_url output_dir max_workers min_delay max_delay
                              should_zip w
            <> (Raised e, w')).
Proof.
  intros env playlist_url output_dir max_workers min_delay max_delay should_zip w
         playlist playlist_name playlist_dir futures w2
         (w1 & Hprep & Hmw & Hrun) Hnone Hmin Hmax.
  assert (Hback : Forall came_back futures).
  { eapply Forall_impl; [| exact Hnone]. intros o ->. now exists None. }
  assert (Hfiles : flat_map file_of futures = []).
  { clear -Hnone. induction Hnone as [| o rest -> _ IH]; [reflexivity | exact IH]. }
  destruct (CollectFacts.collect_all_back env min_delay max_delay Hmin Hmax
              futures [] w2 Hback) as (delays & Hcol & Hlen & Hdel).
  rewrite Hfiles in Hcol.
  assert (Heq : download_playlist env playlist_url output_dir max_workers min_delay
                                  max_delay should_zip w
                = (Returned None,
                   mk_world (fs_of w2)
                            (trace_of w2 ++ delays ++ [Log ERROR NoFilesDownloaded])
                            (draws_of w2 + List.length futures))).
  { rewrite (CollectFacts.download_playlist_eq env playlist_url output_dir max_workers
               min_delay max_delay should_zip w playlist playlist_name playlist_dir
               w1 futures w2 Hprep Hmw Hrun).
    rewrite Hcol. cbn [app finish]. unfold bind, log, ret. world_shape. }
  exists delays. repeat split; try assumption.
  intros e w'. rewrite Heq. discriminate.
Qed.

(** *** The archival step *)

Module ArchiveFacts.

Lemma path_eqb_eq p : forall q, Path.eqb p q = true <-> p = q.
Proof.
  induction p as [| a p IH]; intros [| b q]; cbn; split; try easy.
  - intros H. apply andb_prop in H as [Hab Hpq].
    apply String.eqb_eq in Hab. apply IH in Hpq. congruence.
  - intros [= -> ->]. rewrite String.eqb_refl. cbn. now apply IH.
Qed.

Lemma path_eqb_refl p : Path.eqb p p = true.
Proof. now apply path_eqb_eq. Qed.

Lemma path_eqb_neq p q : p <> q -> Path.eqb p q = false.
Proof.
  intros H. destruct (Path.eqb p q) eqn:E; [| reflexivity].
  apply path_eqb_eq in E. contradiction.
Qed.

Lemma lookup_remove_same fs p : FS.lookup (FS.remove fs p) p = None.
Proof.
  unfold FS.remove. induction fs as [| [q n] fs IH]; cbn; [reflexivity |].
  destruct (Path.eqb q p) eqn:E; cbn; [exact IH |]. now rewrite E.
Qed.

Lemma lookup_remove_other fs p q :
  p <> q -> FS.lookup (FS.remove fs q) p = FS.lookup fs p.
Proof.
  intros Hpq. unfold FS.remove. induction fs as [| [r n] fs IH]; cbn; [reflexivity |].
  destruct (Path.eqb r q) eqn:E; cbn.
  - apply path_eqb_eq in E. subst r.
    rewrite (path_eqb_neq q p) by congruence. exact IH.
  - destruct (Path.eqb r p); [reflexivity | exact IH].
Qed.

Lemma lookup_app fs fs' p :
  FS.lookup (fs ++ fs') p
  = match FS.lookup fs p with Some n => Some n | None => FS.lookup fs' p end.
Proof.
  induction fs as [| [q n] fs IH]; cbn; [reflexivity |].
  destruct (Path.eqb q p); [reflexivity | exact IH].
Qed.

Lemma lookup_write_same fs p c : FS.lookup (FS.write fs p c) p = Some (File c).
Proof.
  unfold FS.write. rewrite lookup_app, lookup_remove_same. cbn.
  now rewrite path_eqb_refl.
Qed.

Lemma lookup_write_other fs p q c :
  p <> q -> FS.lookup (FS.write fs q c) p = FS.lookup fs p.
Proof.
  intros Hpq. unfold FS.write. rewrite lookup_app, (lookup_remove_other fs p q Hpq).
  destruct (FS.lookup fs p); [reflexivity |]. cbn.
  now rewrite (path_eqb_neq q p) by congruence.
Qed.

(** A look-up after [rmtree]: what lay under the directory is gone, the
    rest is as before. *)
Lemma lookup_rmtree fs d p :
  FS.lookup (List.filter (fun '(q, _) => negb (Path.is_prefix d q)) fs) p
  = if Path.is_prefix d p then None else FS.lookup fs p.
Proof.
  induction fs as [| [q n] fs IH]; cbn; [now destruct (Path.is_prefix d p) |].
  destruct (Path.is_prefix d q) eqn:Eq; cbn.
  - destruct (Path.eqb q p) eqn:E.
    + apply path_eqb_eq in E. subst q. rewrite IH, Eq. reflexivity.
    + exact IH.
  - destruct (Path.eqb q p) eqn:E.
    + apply path_eqb_eq in E. subst q. now rewrite Eq.
    + exact IH.
Qed.

Lemma is_prefix_refl d : Path.is_prefix d d = true.
Proof. induction d as [| a d IH]; cbn; [reflexivity |]. now rewrite String.eqb_refl. Qed.

Lemma relative_to_is_prefix p : forall base r,
  Path.relative_to p base = Some r -> Path.is_prefix base p = true.
Proof.
  induction p as [| b p IH]; intros [| a base] r; cbn; try easy.
  destruct (String.eqb a b); [apply IH | discriminate].
Qed.

Lemma zip_members_ok fs base_dir files :
  Forall (fun f => FS.is_file fs f = true /\ Path.is_prefix base_dir f = true) files ->
  Utils.zip_members fs files base_dir = Returned (members_of files base_dir)
  /\ List.length (members_of files base_dir) = List.length files.
Proof.
  induction 1 as [| f rest [Hf Hp] _ [IH IHlen]]; cbn; [now split |].
  rewrite Hf.
  assert (Hr : exists r, Path.relative_to f base_dir = Some r).
  { clear -Hp. revert f Hp.
    induction base_dir as [| a base IH]; intros [| b f] Hp; cbn in *; try easy.
    - now exists [].
    - now exists (b :: f).
    - destruct (String.eqb a b); [now apply IH | discriminate]. }
  destruct Hr as [r Hr]. rewrite Hr, IH.
  unfold members_of in *. cbn [flat_map]. rewrite ?Hr. cbn.
  split; [reflexivity | now rewrite IHlen].
Qed.

(** Deleting pairwise distinct regular files works, file after file. *)
Lemma unlink_all_distinct files : forall w,
  NoDup files ->
  Forall (fun f => f <> [] /\ FS.is_file (fs_of w) f = true) files ->
  exists fs',
    unlink_all files w = (Returned tt, mk_world fs' (trace_of w) (draws_of w))
    /\ (forall p, In p files -> FS.lookup fs' p = None)
    /\ (forall p, ~ In p files -> FS.lookup fs' p = FS.lookup (fs_of w) p).
Proof.
  induction files as [| f rest IH]; intros w Hnd Hfiles.
  - exists (fs_of w). destruct w. cbn. repeat split; easy.
  - inversion Hnd as [| ? ? Hnotin Hnd']; subst.
    inversion Hfiles as [| ? ? [Hnonroot Hf] Hrest]; subst.
    cbn [unlink_all]. unfold bind at 1. unfold unlink, update_fs, with_fs.
    unfold FS.unlink. unfold FS.is_file in Hf.
    destruct f as [| a f']; [congruence |].
    destruct (FS.lookup (fs_of w) (a :: f')) as [[| c] |] eqn:L; try discriminate.
    set (w1 := mk_world (FS.remove (fs_of w) (a :: f')) (trace_of w) (draws_of w)).
    destruct (IH w1 Hnd') as (fs' & Heq & Hgone & Hkept).
    { rewrite Forall_forall in Hrest |- *. intros g Hg.
      destruct (Hrest g Hg) as [Hgn Hgf]. split; [exact Hgn |]. cbn.
      unfold FS.is_file. rewrite lookup_remove_other; [exact Hgf |].
      intros ->. contradiction. }
    exists fs'. split; [exact Heq |]. split.
    + intros p [<- | Hin].
      * rewrite (Hkept _ Hnotin). cbn. apply lookup_remove_same.
      * now apply Hgone.
    + intros p Hp. rewrite Hkept by (intros Hin; apply Hp; now right).
      cbn. apply lookup_remove_other. intros ->. apply Hp. now left.
Qed.

Lemma finish_nonempty env output_dir playlist_name playlist_dir files w :
  files <> [] ->
  finish env output_dir playlist_name playlist_dir true files w
  = (with_fs (create_zip env files (Path.joinpath output_dir (playlist_name ++ ".zip"))
                         playlist_dir) ;;
     unlink_all files ;;
     rmtree playlist_dir ;;
     ret (Some (Path.joinpath output_dir (playlist_name ++ ".zip")))) w.
Proof. destruct files; [congruence | reflexivity]. Qed.

(** Where the archival step does what it is meant to do: on a list of
    pairwise distinct regular files inside the playlist directory, with the
    archive path outside that directory.  The archive then holds one member
    per file, the files and the directory are gone, and the archive path is
    returned. *)
Lemma finish_archives env output_dir playlist_name playlist_dir files w :
  create_zip env = Utils.create_zip ->
  files <> [] ->
  NoDup files ->
  Forall (fun f => FS.is_file (fs_of w) f = true
                   /\ Path.is_prefix playlist_dir f = true) files ->
  FS.is_dir (fs_of w) playlist_dir = true ->
  Path.is_prefix playlist_dir (Path.joinpath output_dir (playlist_name ++ ".zip")) = false ->
  FS.is_dir (fs_of w) (Path.joinpath output_dir (playlist_name ++ ".zip")) = false ->
  exists fs',
    finish env output_dir playlist_name playlist_dir true files w
    = (Returned (Some (Path.joinpath output_dir (playlist_name ++ ".zip"))),
       mk_world fs' (trace_of w) (draws_of w))
    /\ FS.lookup fs' (Path.joinpath output_dir (playlist_name ++ ".zip"))
       = Some (File (Archive (members_of files playlist_dir)))
    /\ List.length (members_of files playlist_dir) = List.length files
    /\ (forall f, In f files -> FS.exists_ fs' f = false)
    /\ FS.exists_ fs' playlist_dir = false.
Proof.
  set (zip_filename := Path.joinpath output_dir (playlist_name ++ ".zip")).
  intros Hzip Hne Hnd Hfiles Hdir Hout Hzdir.
  destruct playlist_dir as [| a pd]; [discriminate Hout |].
  set (playlist_dir := a :: pd) in *.
  assert (Hzd : zip_filename <> playlist_dir).
  { intros E. rewrite E, is_prefix_refl in Hout. discriminate. }
  assert (Hin : forall f, In f files ->
                  f <> [] /\ f <> zip_filename /\ f <> playlist_dir
                  /\ FS.is_file (fs_of w) f = true
                  /\ Path.is_prefix playlist_dir f = true).
  { intros f Hf. rewrite Forall_forall in Hfiles.
    destruct (Hfiles f Hf) as [Hfile Hpre]. repeat split; try assumption.
    - intros ->. discriminate Hpre.
    - intros ->. congruence.
    - intros ->. unfold FS.is_file in Hfile. unfold FS.is_dir, playlist_dir in Hdir.
      fold playlist_dir in Hdir.
      destruct (FS.lookup (fs_of w) playlist_dir) as [[| c] |]; discriminate. }
  destruct (zip_members_ok (fs_of w) playlist_dir files Hfiles) as [Hmem Hlen].
  (* the archive is written *)
  rewrite (finish_nonempty env output_dir playlist_name playlist_dir files w Hne).
  rewrite Hzip. fold zip_filename.
  unfold bind at 1. unfold with_fs at 1. unfold Utils.create_zip.
  rewrite Hmem, Hzdir.
  set (fs1 := FS.write (fs_of w) zip_filename (Archive (members_of files playlist_dir))).
  set (w1 := mk_world fs1 (trace_of w) (draws_of w)).
  (* the originals are deleted *)
  destruct (unlink_all_distinct files w1 Hnd) as (fs2 & Hun & Hgone & Hkept).
  { rewrite Forall_forall. intros f Hf.
    destruct (Hin f Hf) as (Hf1 & Hf2 & _ & Hf4 & _). split; [exact Hf1 |].
    cbn. unfold FS.is_file, fs1. now rewrite lookup_write_other. }
  unfold bind at 1. rewrite Hun. cbn [trace_of draws_of].
  (* the directory is removed *)
  assert (Hpd : ~ In playlist_dir files).
  { intros Hf. now destruct (Hin _ Hf) as (_ & _ & Hf3 & _). }
  assert (Hzf : ~ In zip_filename files).
  { intros Hf. now destruct (Hin _ Hf) as (_ & Hf2 & _). }
  assert (Hdir2 : FS.is_dir fs2 playlist_dir = true).
  { unfold FS.is_dir, playlist_dir. fold playlist_dir.
    rewrite (Hkept _ Hpd). cbn. unfold fs1.
    rewrite lookup_write_other by congruence.
    unfold FS.is_dir, playlist_dir in Hdir. exact Hdir. }
  unfold bind at 1. unfold rmtree, update_fs, with_fs, FS.rmtree.
  cbn [fs_of trace_of draws_of]. rewrite Hdir2.
  eexists. split; [unfold ret; reflexivity |].
  split; [| split; [exact Hlen | split]].
  - rewrite lookup_rmtree, Hout, (Hkept _ Hzf). cbn. apply lookup_write_same.
  - intros f Hf. destruct (Hin f Hf) as (Hf1 & _ & _ & _ & Hf5).
    unfold FS.exists_. destruct f as [| b f']; [congruence |].
    now rewrite lookup_rmtree, Hf5.
  - unfold FS.exists_, playlist_dir. fold playlist_dir.
    now rewrite lookup_rmtree, is_prefix_refl.
Qed.

End ArchiveFacts.

(** *** The result of [download_playlist] when the tasks come back *)

Module OrchestrationFacts.

(** Without archival: the playlist directory is returned exactly when some
    task returned a file, and the collected list has one entry per task
    that did. *)
Lemma download_playlist_without_archive
      env playlist_url output_dir max_workers min_delay max_delay w
      playlist playlist_name playlist_dir futures w2 :
  tasks_end env playlist_url output_dir max_workers w
            playlist playlist_name playlist_dir futures w2 ->
  Forall came_back futures ->
  (0 <= min_delay)%Z -> (0 <= max_delay)%Z ->
  exists w3,
    download_playlist env playlist_url output_dir max_workers min_delay max_delay false w
    = (Returned (if Nat.leb 1 (List.length futures - failures futures)
                 then Some playlist_dir else None),
       w3)
    /\ fs_of w3 = fs_of w2
    /\ List.length (flat_map file_of futures)
       = List.length futures - failures futures.
Proof.
  intros (w1 & Hprep & Hmw & Hrun) Hback Hmin Hmax.
  destruct (CollectFacts.collect_all_back env min_delay max_delay Hmin Hmax
              futures [] w2 Hback) as (delays & Hcol & _).
  rewrite (CollectFacts.download_playlist_eq env playlist_url output_dir max_workers
             min_delay max_delay false w playlist playlist_name playlist_dir
             w1 futures w2 Hprep Hmw Hrun).
  rewrite Hcol. cbn [app].
  rewrite <- (CollectFacts.successes_count futures Hback).
  destruct (flat_map file_of futures) as [| f files]; cbn.
  - eexists. unfold bind, log, ret. cbn. repeat split.
  - eexists. unfold ret. repeat split.
Qed.

(** With archival, on pairwise distinct regular files under the playlist
    directory: the archive path is returned, the archive holds one member
    per successful task, and neither the files nor the directory remain. *)
Lemma download_playlist_with_archive
      env playlist_url output_dir max_workers min_delay max_delay w
      playlist playlist_name playlist_dir futures w2 :
  tasks_end env playlist_url output_dir max_workers w
            playlist playlist_name playlist_dir futures w2 ->
  Forall came_back futures ->
  (0 <= min_delay)%Z -> (0 <= max_delay)%Z ->
  create_zip env = Utils.create_zip ->
  flat_map file_of futures <> [] ->
  NoDup (flat_map file_of futures) ->
  Forall (fun f => FS.is_file (fs_of w2) f = true
                   /\ Path.is_prefix playlist_dir f = true) (flat_map file_of futures) ->
  FS.is_dir (fs_of w2) playlist_dir = true ->
  Path.is_prefix playlist_dir (Path.joinpath output_dir (playlist_name ++ ".zip")) = false ->
  FS.is_dir (fs_of w2) (Path.joinpath output_dir (playlist_name ++ ".zip")) = false ->
  exists w3,
    download_playlist env playlist_url output_dir max_workers min_delay max_delay true w
    = (Returned (Some (Path.joinpath output_dir (playlist_name ++ ".zip"))), w3)
    /\ FS.lookup (fs_of w3) (Path.joinpath output_dir (playlist_name ++ ".zip"))
       = Some (File (Archive (members_of (flat_map file_of futures)
                                                      playlist_dir)))
    /\ List.length (members_of (flat_map file_of futures) playlist_dir)
       = List.length futures - failures futures
    /\ (forall f, In f (flat_map file_of futures) -> FS.exists_ (fs_of w3) f = false)
    /\ FS.exists_ (fs_of w3) playlist_dir = false.
Proof.
  intros (w1 & Hprep & Hmw & Hrun) Hback Hmin Hmax Hzip Hne Hnd Hfiles Hdir Hout Hzdir.
  destruct (CollectFacts.collect_all_back env min_delay max_delay Hmin Hmax
              futures [] w2 Hback) as (delays & Hcol & _).
  rewrite (CollectFacts.download_playlist_eq env playlist_url output_dir max_workers
             min_delay max_delay true w playlist playlist_name playlist_dir
             w1 futures w2 Hprep Hmw Hrun).
  rewrite Hcol. cbn [app].
  set (w3 := mk_world (fs_of w2) (trace_of w2 ++ delays)
                      (draws_of w2 + List.length futures)).
  destruct (ArchiveFacts.finish_archives env output_dir playlist_name playlist_dir
              (flat_map file_of futures) w3 Hzip Hne Hnd Hfiles Hdir Hout Hzdir)
    as (fs' & Heq & Hz & Hlen & Hgone & Hnodir).
  eexists. split; [exact Heq |]. cbn [fs_of].
  rewrite <- (CollectFacts.successes_count futures Hback).
  repeat split; assumption.
Qed.

End OrchestrationFacts.

Lemma download_playlist_nothing_downloaded_witness :
  let futures := [Returned None; Returned None] in
  let w2 := mk_world (fs_of Runs.prepared)
                     (trace_of Runs.prepared
                      ++ [Runs.skipped Scenario.track_a; Runs.skipped Scenario.track_b])
                     0 in
  (tasks_end Runs.all_blocked Scenario.playlist_url Scenario.output default_max_workers
             Scenario.empty_world
             (Runs.mix [Scenario.track_a; Scenario.track_b]) "Mix" Runs.mix_dir futures w2
   /\ Forall (fun future => future = Returned None) futures
   /\ (0 <= default_min_delay)%Z /\ (0 <= default_max_delay)%Z)
  /\ fst (download_playlist Runs.all_blocked Scenario.playlist_url Scenario.output
                            default_max_workers default_min_delay default_max_delay true
                            Scenario.empty_world)
     = Returned None.
Proof.
  cbv zeta.
  assert (Ht : tasks_end Runs.all_blocked Scenario.playlist_url Scenario.output
                 default_max_workers Scenario.empty_world
                 (Runs.mix [Scenario.track_a; Scenario.track_b]) "Mix" Runs.mix_dir
                 [Returned None; Returned None]
                 (mk_world (fs_of Runs.prepared)
                    (trace_of Runs.prepared
                     ++ [Runs.skipped Scenario.track_a; Runs.skipped Scenario.track_b])
                    0)).
  { exists Runs.prepared. split; [reflexivity |]. split; reflexivity. }
  assert (Hn : Forall (fun future : outcome (option path) => future = Returned None)
                      [Returned None; Returned None]).
  { repeat constructor. }
  assert (H3 : (0 <= default_min_delay)%Z) by discriminate.
  assert (H10 : (0 <= default_max_delay)%Z) by discriminate.
  split; [repeat split; assumption |].
  destruct (download_playlist_nothing_downloaded
              Runs.all_blocked Scenario.playlist_url Scenario.output default_max_workers
              default_min_delay default_max_delay true Scenario.empty_world
              (Runs.mix [Scenario.track_a; Scenario.track_b]) "Mix" Runs.mix_dir
              [Returned None; Returned None] _ Ht Hn H3 H10) as (delays & Heq & _).
  rewrite Heq. reflexivity.
Defined.

(** C4 (archival) at a playlist whose two tracks carry the same title, both
    downloaded.  Both tasks return the same path, so the list of downloaded
    files holds it twice; the archive is written, the first [unlink] removes
    the file, the second raises [FileNotFoundError].  [download_playlist]
    returns no archive path, and the playlist directory is still there. *)
Lemma download_playlist_archive_same_title :
  let run := download_playlist Runs.same_title Scenario.playlist_url Scenario.output
                               default_max_workers default_min_delay default_max_delay
                               true Scenario.empty_world in
  run_tasks Runs.same_title
            (map track_of [Scenario.track_a; Scenario.track_a']) Runs.mix_dir Runs.prepared
  = (Returned [Returned (Some Runs.intro_mp3); Returned (Some Runs.intro_mp3)],
     mk_world (fs_of Runs.prepared
               ++ [(Runs.intro_mp3, File (Media "https://soundcloud.com/other/intro"))])
              (trace_of Runs.prepared
               ++ [Sleep (1 # 2); Stat Runs.intro_mp3;
                   Log INFO (SuccessfullyDownloaded Runs.intro_mp3);
                   Sleep (1 # 2); Stat Runs.intro_mp3;
                   Log INFO (SuccessfullyDownloaded Runs.intro_mp3)])
              0)
  /\ fst run = Raised (mk_exn FileNotFoundError "/home/user/output/Mix/Intro.mp3")
  /\ FS.is_dir (fs_of (snd run)) Runs.mix_dir = true
  /\ FS.lookup (fs_of (snd run)) (Scenario.output ++ ["Mix.zip"])
     = Some (File (Archive [["Intro.mp3"]; ["Intro.mp3"]])).
Proof.
  cbv zeta. repeat split; vm_compute; reflexivity.
Qed.

(** C2 (one result per successful track) at the same playlist: of [N = 2]
    tasks [K = 0] fail, so [N - K >= 1], and the two collected entries are
    one and the same file.  With archival requested [download_playlist]
    raises instead of returning a result; without it the directory it
    returns holds a single file for the two entries. *)
Lemma download_playlist_same_title_no_result :
  let futures := [Returned (Some Runs.intro_mp3); Returned (Some Runs.intro_mp3)] in
  let zipped := download_playlist Runs.same_title Scenario.playlist_url Scenario.output
                                  default_max_workers default_min_delay default_max_delay
                                  true Scenario.empty_world in
  let plain := download_playlist Runs.same_title Scenario.playlist_url Scenario.output
                                 default_max_workers default_min_delay default_max_delay
                                 false Scenario.empty_world in
  fst (run_tasks Runs.same_title
                 (as_completed Runs.same_title
                    (Playlist.tracks (Runs.mix [Scenario.track_a; Scenario.track_a'])))
                 Runs.mix_dir Runs.prepared)
  = Returned futures
  /\ List.length futures - failures futures = 2
  /\ flat_map file_of futures = [Runs.intro_mp3; Runs.intro_mp3]
  /\ (forall result, fst zipped <> Returned result)
  /\ fst plain = Returned (Some Runs.mix_dir)
  /\ FS.children (fs_of (snd plain)) Runs.mix_dir = [Runs.intro_mp3].
Proof.
  cbv zeta. repeat split; try (vm_compute; reflexivity).
  intros result. vm_compute. discriminate.
Qed.

Lemma get_playlist_info_filters_entries_witness :
  let raw := [Scenario.track_a; VNone; Scenario.removed; Scenario.track_b] in
  let env := Scenario.make (VStr "Mix") raw [] Scenario.fetch_mp3 in
  delivers env Scenario.playlist_url (VStr "77") (VStr "Mix") raw
  /\ exists tracks,
      get_playlist_info env Scenario.playlist_url Scenario.empty_world
      = (Returned (Playlist.mk (VStr "77") (VStr "Mix") tracks), Scenario.empty_world)
      /\ List.length tracks = 2.
Proof.
  cbv zeta.
  assert (D : delivers
                (Scenario.make (VStr "Mix")
                   [Scenario.track_a; VNone; Scenario.removed; Scenario.track_b] []
                   Scenario.fetch_mp3)
                Scenario.playlist_url (VStr "77") (VStr "Mix")
                [Scenario.track_a; VNone; Scenario.removed; Scenario.track_b]).
  { eexists. repeat split; reflexivity. }
  split; [exact D |].
  destruct (get_playlist_info_filters_entries _ _ _ _ _ Scenario.empty_world D)
    as (tracks & Heq & _ & _ & Hlen & _).
  exists tracks. split; [exact Heq | exact Hlen].
Defined.

Lemma get_playlist_info_preserves_order_witness :
  let raw := [Scenario.track_b; VNone; Scenario.removed; Scenario.track_a] in
  let env := Scenario.make (VStr "Mix") raw [] Scenario.fetch_mp3 in
  delivers env Scenario.playlist_url (VStr "77") (VStr "Mix") raw
  /\ get_playlist_info env Scenario.playlist_url Scenario.empty_world
     = (Returned (Runs.mix [Scenario.track_b; Scenario.track_a]), Scenario.empty_world).
Proof.
  cbv zeta.
  assert (D : delivers
                (Scenario.make (VStr "Mix")
                   [Scenario.track_b; VNone; Scenario.removed; Scenario.track_a] []
                   Scenario.fetch_mp3)
                Scenario.playlist_url (VStr "77") (VStr "Mix")
                [Scenario.track_b; VNone; Scenario.removed; Scenario.track_a]).
  { eexists. repeat split; reflexivity. }
  split; [exact D |].
  exact (get_playlist_info_preserves_order _ _ _ _ _ Scenario.empty_world D).
Defined.

(** The archival step on a playlist of two differently titled tracks, both
    downloaded: one archive with two members, nothing else left. *)
Example download_playlist_archives_two_tracks :
  let env := Scenario.make (VStr "Mix") [Scenario.track_a; Scenario.track_b]
                           [Scenario.track_a; Scenario.track_b] Scenario.fetch_mp3 in
  exists w3,
    download_playlist env Scenario.playlist_url Scenario.output
                      default_max_workers default_min_delay default_max_delay true
                      Scenario.empty_world
    = (Returned (Some (Scenario.output ++ ["Mix.zip"])), w3)
    /\ FS.lookup (fs_of w3) (Scenario.output ++ ["Mix.zip"])
       = Some (File (Archive [["Intro.mp3"]; ["Outro.mp3"]]))
    /\ FS.exists_ (fs_of w3) Runs.intro_mp3 = false
    /\ FS.exists_ (fs_of w3) Runs.mix_dir = false.
Proof.
  cbv zeta.
  set (env := Scenario.make (VStr "Mix") [Scenario.track_a; Scenario.track_b]
                            [Scenario.track_a; Scenario.track_b] Scenario.fetch_mp3).
  set (outro_mp3 := Runs.mix_dir ++ ["Outro.mp3"]).
  set (w2 := mk_world
               (fs_of Runs.prepared
                ++ [(Runs.intro_mp3, File (Media "https://soundcloud.com/someone/intro"));
                    (outro_mp3, File (Media "https://soundcloud.com/someone/outro"))])
               (trace_of Runs.prepared
                ++ [Sleep (1 # 2); Stat Runs.intro_mp3;
                    Log INFO (SuccessfullyDownloaded Runs.intro_mp3);
                    Sleep (1 # 2); Stat outro_mp3;
                    Log INFO (SuccessfullyDownloaded outro_mp3)])
               0).
  assert (Ht : tasks_end env Scenario.playlist_url Scenario.output default_max_workers
                 Scenario.empty_world
                 (Runs.mix [Scenario.track_a; Scenario.track_b]) "Mix" Runs.mix_dir
                 [Returned (Some Runs.intro_mp3); Returned (Some outro_mp3)] w2).
  { exists Runs.prepared. split; [reflexivity |]. split; reflexivity. }
  destruct (OrchestrationFacts.download_playlist_with_archive
              env Scenario.playlist_url Scenario.output default_max_workers
              default_min_delay default_max_delay Scenario.empty_world
              (Runs.mix [Scenario.track_a; Scenario.track_b]) "Mix" Runs.mix_dir
              [Returned (Some Runs.intro_mp3); Returned (Some outro_mp3)] w2 Ht)
    as (w3 & Heq & Hzip & _ & Hgone & Hdir).
  - repeat constructor; eexists; reflexivity.
  - discriminate.
  - discriminate.
  - reflexivity.
  - discriminate.
  - repeat constructor; cbn; intuition discriminate.
  - repeat constructor.
  - reflexivity.
  - reflexivity.
  - reflexivity.
  - exists w3. split; [exact Heq |]. split; [exact Hzip |]. split; [| exact Hdir].
    apply Hgone. now left.
Qed.

(* ===================================================================== *)
(** ** More on [download_track] *)
(* ===================================================================== *)

Module TrackFacts.

(** [download_track], phase by phase. *)
Lemma download_track_cases env track output_dir w :
  download_track env track output_dir w
  = let skipped e :=
      if is_Exception e
      then (Returned None,
            mk_world (fs_of w)
                     (trace_of w ++ [Log INFO (SkippingProbe (Track.title track)
                                                            (Track.url track) e)])
                     (draws_of w))
      else (Raised e, w) in
    match extract_info env (Track.url track) with
    | Raised e => skipped e
    | Returned info =>
        match prepare_filename env info with
        | Raised e => skipped e
        | Returned filename =>
            match download env (Path.to_str (target_of env output_dir filename))
                           (Track.url track) (fs_of w) with
            | (Returned _, fs') =>
                resolve_downloaded output_dir (clean_filename env filename)
                                   (target_of env output_dir filename)
                                   (mk_world fs' (trace_of w) (draws_of w))
            | (Raised e, fs') =>
                if is_Exception e
                then (Returned None,
                      mk_world fs'
                               (trace_of w
                                ++ [Log INFO (SkippingDownload (Track.title track) e)])
                               (draws_of w))
                else (Raised e, mk_world fs' (trace_of w) (draws_of w))
            end
        end
    end.
Proof.
  cbv zeta.
  destruct (extract_info env (Track.url track)) as [info | e] eqn:Hx.
  - destruct (prepare_filename env info) as [filename | e] eqn:Hp.
    + apply DownloadTrackFacts.after_probe. now exists info.
    + unfold download_track, bind, try_except, lift, log, ret.
      rewrite Hx, Hp. destruct (is_Exception e); reflexivity.
  - unfold download_track, bind, try_except, lift, log, ret.
    rewrite Hx. destruct (is_Exception e); reflexivity.
Qed.

(** The search for the file only looks and logs: it returns or raises in
    the file system it started in, and every path it returns exists there. *)
Lemma resolve_downloaded_looks_only output_dir clean_name target w :
  exists o shown,
    resolve_downloaded output_dir clean_name target w
    = (o, mk_world (fs_of w) (trace_of w ++ shown) (draws_of w))
    /\ (forall f, o = Returned (Some f) -> FS.exists_ (fs_of w) f = true)
    /\ (forall tr, resolve_downloaded output_dir clean_name target
                     (mk_world (fs_of w) tr (draws_of w))
                   = (o, mk_world (fs_of w) (tr ++ shown) (draws_of w))).
Proof.
  assert (Hchild : forall fs d f, In f (FS.children fs d) -> FS.exists_ fs f = true).
  { intros fs d f Hin. unfold FS.children in Hin.
    apply in_map_iff in Hin as ([q n] & Hq & Hin). cbn in Hq. subst q.
    apply filter_In in Hin as [Hin Hnonroot].
    destruct f as [| a f']; [discriminate |].
    unfold FS.exists_.
    clear Hnonroot. induction fs as [| [q m] fs IH]; [contradiction |].
    cbn. destruct (Path.eqb q (a :: f')) eqn:E; [reflexivity |].
    destruct Hin as [Heq | Hin]; [| now apply IH].
    injection Heq as -> ->. now rewrite ArchiveFacts.path_eqb_refl in E. }
  unfold resolve_downloaded.
  unfold bind at 1. unfold sleep. cbn [Qle_bool Qnum Qden Z.mul Z.leb Z.compare Pos.mul].
  unfold bind at 1. unfold lift.
  destruct (Path.with_suffix target ".mp3") as [mp3 | e].
  2:{ exists (Raised e), [Sleep (1 # 2)]. repeat split; try reflexivity. discriminate. }
  unfold path_exists, iterdir, observe, read_fs, with_fs, log, ret, bind.
  cbn [fs_of trace_of draws_of].
  destruct (FS.exists_ (fs_of w) mp3) eqn:E1.
  { eexists. eexists. split; [world_shape |]. split.
    - now intros f [= <-].
    - intros tr. world_shape. }
  cbn [fs_of trace_of draws_of].
  destruct (FS.exists_ (fs_of w) target) eqn:E2.
  { eexists. eexists. split; [world_shape |]. split.
    - now intros f [= <-].
    - intros tr. world_shape. }
  cbn [fs_of trace_of draws_of].
  destruct (FS.iterdir (fs_of w) output_dir) as [dir_contents | e] eqn:Hit.
  2:{ eexists. eexists. split; [world_shape |]. split.
      - discriminate.
      - intros tr. world_shape. }
  destruct (List.filter _ dir_contents) as [| f rest] eqn:Hsim.
  - eexists. eexists. split; [world_shape |]. split.
    + discriminate.
    + intros tr. world_shape.
  - eexists. eexists. split; [world_shape |]. split.
    + intros g [= <-].
      assert (Hin : In f dir_contents).
      { assert (Hf : In f (f :: rest)) by now left.
        rewrite <- Hsim in Hf. now apply filter_In in Hf. }
      unfold FS.iterdir in Hit.
      destruct (FS.is_dir (fs_of w) output_dir);
        [| destruct (FS.exists_ (fs_of w) output_dir); discriminate].
      injection Hit as <-. exact (Hchild _ _ _ Hin).
    + intros tr. world_shape.
Qed.

(** A run of [download_track] in short: what it yields, the file system it
    leaves and what it shows depend on the file system it starts in, not on
    what was shown before. *)
Lemma download_track_frame env track output_dir w :
  exists o fs' shown,
    (forall tr, download_track env track output_dir (mk_world (fs_of w) tr (draws_of w))
                = (o, mk_world fs' (tr ++ shown) (draws_of w)))
    /\ (forall f, o = Returned (Some f) -> FS.exists_ fs' f = true)
    /\ fs' = match extract_info env (Track.url track) with
             | Returned info =>
                 match prepare_filename env info with
                 | Returned filename =>
                     snd (download env (Path.to_str (target_of env output_dir filename))
                                   (Track.url track) (fs_of w))
                 | Raised _ => fs_of w
                 end
             | Raised _ => fs_of w
             end.
Proof.
  assert (Hskip : forall e : exn,
             exists o shown,
               (forall tr,
                   (if is_Exception e
                    then (Returned None,
                          mk_world (fs_of w)
                            (tr ++ [Log INFO (SkippingProbe (Track.title track)
                                                           (Track.url track) e)])
                            (draws_of w))
                    else (Raised e, mk_world (fs_of w) tr (draws_of w)))
                   = (o : outcome (option path),
                      mk_world (fs_of w) (tr ++ shown) (draws_of w)))
               /\ (forall f, o = Returned (Some f) -> FS.exists_ (fs_of w) f = true)).
  { intros e. destruct (is_Exception e).
    - eexists. eexists. split; [intros tr; reflexivity | discriminate].
    - exists (Raised e), []. split; [intros tr; now rewrite app_nil_r | discriminate]. }
  destruct (extract_info env (Track.url track)) as [info | e] eqn:Hx.
  - destruct (prepare_filename env info) as [filename | e] eqn:Hp.
    + destruct (download env (Path.to_str (target_of env output_dir filename))
                         (Track.url track) (fs_of w)) as [[u | e] fs'] eqn:Hd.
      * destruct (resolve_downloaded_looks_only
                    output_dir (clean_filename env filename)
                    (target_of env output_dir filename)
                    (mk_world fs' [] (draws_of w))) as (o & shown & _ & Hex & Hfr).
        cbn [fs_of trace_of draws_of] in Hex, Hfr.
        exists o, fs', shown. split; [| split; [exact Hex | reflexivity]].
        intros tr. rewrite download_track_cases. cbv zeta.
        cbn [fs_of trace_of draws_of]. rewrite Hx, Hp, Hd. apply Hfr.
      * destruct (is_Exception e) eqn:He.
        -- eexists. exists fs'. eexists.
           split; [| split; [| reflexivity]].
           ++ intros tr. rewrite download_track_cases. cbv zeta.
              cbn [fs_of trace_of draws_of]. rewrite Hx, Hp, Hd, He. reflexivity.
           ++ discriminate.
        -- exists (Raised e), fs', [].
           split; [| split; [discriminate | reflexivity]].
           intros tr. rewrite download_track_cases. cbv zeta.
           cbn [fs_of trace_of draws_of]. rewrite Hx, Hp, Hd, He.
           now rewrite app_nil_r.
    + destruct (Hskip e) as (o & shown & Heq & Hex).
      exists o, (fs_of w), shown. split; [| split; [exact Hex | reflexivity]].
      intros tr. rewrite download_track_cases. cbv zeta.
      cbn [fs_of trace_of draws_of]. rewrite Hx, Hp. apply Heq.
  - destruct (Hskip e) as (o & shown & Heq & Hex).
    exists o, (fs_of w), shown. split; [| split; [exact Hex | reflexivity]].
    intros tr. rewrite download_track_cases. cbv zeta.
    cbn [fs_of trace_of draws_of]. rewrite Hx. apply Heq.
Qed.

Lemma world_eta w : mk_world (fs_of w) (trace_of w) (draws_of w) = w.
Proof. now destruct w. Qed.

End TrackFacts.

(** What is not an [Exception] is not caught: a [KeyboardInterrupt] or
    [SystemExit] raised by the probe or by the fetch leaves [download_track]
    as it is, with no [Skipping] line logged. *)
Theorem download_track_lets_interrupts_through :
  forall env track output_dir w e,
    is_Exception e = false ->
    (probe_fails env track e ->
     download_track env track output_dir w = (Raised e, w))
    /\ (forall filename fs',
          probe_gives env track filename ->
          fetch_ends env track output_dir filename (fs_of w) (Raised e) fs' ->
          download_track env track output_dir w
          = (Raised e, mk_world fs' (trace_of w) (draws_of w))).
Proof.
  intros env track output_dir w e He. split.
  - intros [Hx | (info & Hx & Hp)];
      rewrite TrackFacts.download_track_cases; cbv zeta;
      rewrite Hx; [| rewrite Hp]; now rewrite He.
  - intros filename fs' (info & Hx & Hp) Hf. unfold fetch_ends in Hf.
    rewrite TrackFacts.download_track_cases. cbv zeta.
    now rewrite Hx, Hp, Hf, He.
Qed.

Lemma download_track_lets_interrupts_through_witness :
  is_Exception Cases.interrupt = false
  /\ probe_fails Cases.interrupted (track_of Scenario.track_a) Cases.interrupt
  /\ download_track Cases.interrupted (track_of Scenario.track_a) Scenario.music
                    Scenario.music_world
     = (Raised Cases.interrupt, Scenario.music_world).
Proof.
  split; [reflexivity |]. split; [left; reflexivity |].
  apply (proj1 (download_track_lets_interrupts_through
                  Cases.interrupted (track_of Scenario.track_a) Scenario.music
                  Scenario.music_world Cases.interrupt eq_refl)).
  left; reflexivity.
Defined.

(** A path returned by [download_track] exists when it is returned. *)
Theorem download_track_returns_existing_path :
  forall env track output_dir w f w',
    download_track env track output_dir w = (Returned (Some f), w') ->
    FS.exists_ (fs_of w') f = true.
Proof.
  intros env track output_dir w f w' Hrun.
  destruct (TrackFacts.download_track_frame env track output_dir w)
    as (o & fs' & shown & Hfr & Hex & _).
  specialize (Hfr (trace_of w)). rewrite TrackFacts.world_eta in Hfr.
  rewrite Hfr in Hrun. injection Hrun as -> <-. now apply Hex.
Qed.

Lemma download_track_returns_existing_path_witness :
  let w' := mk_world [(Scenario.music, Dir);
                      (["music"; "Intro.mp3"],
                       File (Media "https://soundcloud.com/someone/intro"))]
                     [Sleep (1 # 2); Stat ["music"; "Intro.mp3"];
                      Log INFO (SuccessfullyDownloaded ["music"; "Intro.mp3"])] 0 in
  download_track Cases.both (track_of Scenario.track_a) Scenario.music Cases.music_dir_only
  = (Returned (Some ["music"; "Intro.mp3"]), w')
  /\ FS.exists_ (fs_of w') ["music"; "Intro.mp3"] = true.
Proof.
  cbv zeta. split; [reflexivity |].
  exact (download_track_returns_existing_path
           Cases.both (track_of Scenario.track_a) Scenario.music Cases.music_dir_only
           ["music"; "Intro.mp3"] _ eq_refl).
Defined.

(* ===================================================================== *)
(** ** More on [get_playlist_info] *)
(* ===================================================================== *)

Module InfoFacts.

Lemma track_of_minimal e : well_formed e = true -> has_minimal_fields (track_of e) = true.
Proof.
  unfold well_formed, has_minimal_fields, track_of, lacks. cbn [Track.url Track.title Track.id].
  destruct (is_dict e); [| discriminate]. cbn [andb].
  destruct (truthy (entry_get e "webpage_url")) eqn:W;
    destruct (truthy (entry_get e "url")) eqn:U;
    destruct (truthy (entry_get e "title")) eqn:T;
    destruct (truthy (entry_get e "id")) eqn:I;
    cbn; try discriminate; intros _; rewrite ?W, ?U; reflexivity.
Qed.

Lemma tracks_minimal raw :
  Forall (fun t => has_minimal_fields t = true) (map track_of (List.filter well_formed raw)).
Proof.
  apply Forall_forall. intros t Ht.
  apply in_map_iff in Ht as (e & <- & He).
  apply filter_In in He as [_ Hw]. now apply track_of_minimal.
Qed.

End InfoFacts.

(** A playlist record whose [entries] are missing, [None] or empty gives a
    [Playlist] without tracks, not an error. *)
Theorem get_playlist_info_without_entries :
  forall env playlist_url info pid ptitle w,
    extract_info env (VStr playlist_url) = Returned (VDict info) ->
    truthy (dict_get info "entries") = false ->
    assoc "id" info = Some pid ->
    assoc "title" info = Some ptitle ->
    get_playlist_info env playlist_url w = (Returned (Playlist.mk pid ptitle []), w).
Proof.
  intros env playlist_url info pid ptitle w Hx He Hid Hti.
  change [] with (map track_of (List.filter well_formed [])).
  apply PlaylistInfoFacts.get_playlist_info_eq.
  exists info. repeat split; try assumption.
  unfold py_or. now rewrite He.
Qed.

Lemma get_playlist_info_without_entries_witness :
  let info := [("id", VStr "77"); ("title", VStr "Mix"); ("entries", VNone)] in
  let env := Cases.answering info in
  truthy (dict_get info "entries") = false
  /\ get_playlist_info env Scenario.playlist_url Scenario.empty_world
     = (Returned (Playlist.mk (VStr "77") (VStr "Mix") []), Scenario.empty_world).
Proof.
  cbv zeta. split; [reflexivity |].
  exact (get_playlist_info_without_entries
           (Cases.answering [("id", VStr "77"); ("title", VStr "Mix"); ("entries", VNone)])
           Scenario.playlist_url
           [("id", VStr "77"); ("title", VStr "Mix"); ("entries", VNone)]
           (VStr "77") (VStr "Mix") Scenario.empty_world
           eq_refl eq_refl eq_refl eq_refl).
Defined.

(** What makes [get_playlist_info] raise once the extractor has answered:
    an answer that is no record ([AttributeError]), entries that cannot be
    iterated ([TypeError]), and, however good the entries are, a record
    without [id] or, failing that, without [title] ([KeyError]).  None of
    these is caught, and nothing is logged. *)
Theorem get_playlist_info_malformed_record :
  forall env playlist_url w answer,
    extract_info env (VStr playlist_url) = Returned answer ->
    (is_dict answer = false ->
     exists msg, get_playlist_info env playlist_url w
                 = (Raised (mk_exn AttributeError msg), w))
    /\ (forall info e,
          answer = VDict info ->
          py_iter (py_or (dict_get info "entries") (VList [])) = Raised e ->
          get_playlist_info env playlist_url w = (Raised e, w)
          /\ exn_class_of e = TypeError)
    /\ (forall info raw,
          answer = VDict info ->
          py_iter (py_or (dict_get info "entries") (VList [])) = Returned raw ->
          assoc "id" info = None ->
          get_playlist_info env playlist_url w = (Raised (mk_exn KeyError "id"), w))
    /\ (forall info raw pid,
          answer = VDict info ->
          py_iter (py_or (dict_get info "entries") (VList [])) = Returned raw ->
          assoc "id" info = Some pid ->
          assoc "title" info = None ->
          get_playlist_info env playlist_url w = (Raised (mk_exn KeyError "title"), w)).
Proof.
  intros env playlist_url w answer Hx.
  split; [| split; [| split]].
  - intros Hd. eexists. unfold get_playlist_info, bind, lift, raise. rewrite Hx.
    destruct answer; try reflexivity. discriminate.
  - intros info e -> Hit. split.
    + unfold get_playlist_info, bind, lift. now rewrite Hx, Hit.
    + destruct (py_or (dict_get info "entries") (VList [])); cbn in Hit;
        try discriminate; now injection Hit as <-.
  - intros info raw -> Hit Hid.
    unfold get_playlist_info, bind, lift, dict_item. now rewrite Hx, Hit, Hid.
  - intros info raw pid -> Hit Hid Hti.
    unfold get_playlist_info, bind, lift, dict_item. now rewrite Hx, Hit, Hid, Hti.
Qed.

Lemma get_playlist_info_malformed_record_witness :
  let info := [("title", VStr "Mix"); ("entries", VList [Scenario.track_a])] in
  let env := Cases.answering info in
  assoc "id" info = None
  /\ get_playlist_info env Scenario.playlist_url Scenario.empty_world
     = (Raised (mk_exn KeyError "id"), Scenario.empty_world).
Proof.
  cbv zeta. split; [reflexivity |].
  exact (proj1 (proj2 (proj2 (get_playlist_info_malformed_record
           (Cases.answering [("title", VStr "Mix"); ("entries", VList [Scenario.track_a])])
           Scenario.playlist_url Scenario.empty_world _ eq_refl)))
           _ [Scenario.track_a] eq_refl eq_refl eq_refl).
Defined.

(** [get_playlist_info] reads and nothing else: however it ends, the file
    system, the log and the random source are as before.  And every track
    of a playlist it returns has a URL, a title and an identifier that are
    present and not empty. *)
Theorem get_playlist_info_tracks_have_minimal_fields :
  forall env playlist_url w,
    snd (get_playlist_info env playlist_url w) = w
    /\ (forall playlist,
          fst (get_playlist_info env playlist_url w) = Returned playlist ->
          Forall (fun t => has_minimal_fields t = true) (Playlist.tracks playlist)).
Proof.
  intros env playlist_url w.
  unfold get_playlist_info, bind, lift, raise, ret, dict_item.
  destruct (extract_info env (VStr playlist_url)) as [answer | e];
    [| split; [reflexivity | discriminate]].
  destruct answer; try (split; [reflexivity | discriminate]).
  destruct (py_iter (py_or (dict_get kvs "entries") (VList []))) as [raw | e];
    [| split; [reflexivity | discriminate]].
  destruct (assoc "id" kvs); [| split; [reflexivity | discriminate]].
  destruct (assoc "title" kvs); [| split; [reflexivity | discriminate]].
  split; [reflexivity |].
  intros playlist [= <-]. cbn [Playlist.tracks].
  rewrite PlaylistInfoFacts.fold_append_track, PlaylistInfoFacts.filter_well_formed_dicts.
  apply InfoFacts.tracks_minimal.
Qed.

(* ===================================================================== *)
(** ** More on [download_playlist] *)
(* ===================================================================== *)

Module PoolFacts.

(** One round of the loop over the futures. *)
Lemma collect_step env min_delay max_delay future rest downloaded_files w :
  collect env (future :: rest) min_delay max_delay downloaded_files w
  = match future with
    | Raised e => (Raised e, w)
    | Returned filepath =>
        let delay := (inject_Z min_delay
                      + (inject_Z max_delay - inject_Z min_delay)
                        * random_unit env (draws_of w))%Q in
        if Qle_bool 0 delay
        then collect env rest min_delay max_delay
                     (downloaded_files ++ file_of (Returned filepath))
                     (mk_world (fs_of w) (trace_of w ++ [Sleep delay]) (S (draws_of w)))
        else (Raised (mk_exn ValueError "sleep length must be non-negative"),
              mk_world (fs_of w) (trace_of w) (S (draws_of w)))
    end.
Proof.
  destruct future as [filepath | e]; [| reflexivity].
  cbn [collect]. unfold bind at 1. unfold lift at 1.
  unfold bind at 1. unfold random_uniform at 1.
  unfold bind at 1. unfold sleep at 1. cbv zeta.
  destruct (Qle_bool 0 _); [| reflexivity].
  cbn [fs_of trace_of draws_of].
  destruct filepath; cbn [file_of]; [reflexivity | now rewrite app_nil_r].
Qed.

Lemma collect_app env min_delay max_delay l1 : forall l2 downloaded_files w,
  collect env (l1 ++ l2) min_delay max_delay downloaded_files w
  = match collect env l1 min_delay max_delay downloaded_files w with
    | (Returned files, w') => collect env l2 min_delay max_delay files w'
    | (Raised e, w') => (Raised e, w')
    end.
Proof.
  induction l1 as [| future rest IH]; intros l2 acc w; [reflexivity |].
  rewrite <- app_comm_cons, !collect_step.
  destruct future as [filepath | e]; [| reflexivity].
  cbv zeta. destruct (Qle_bool 0 _); [apply IH | reflexivity].
Qed.

(** The loop changes neither the file system nor what the tasks showed; it
    only appends sleeps. *)
Lemma collect_sleeps_only env min_delay max_delay futures : forall downloaded_files w,
  exists o sleeps,
    collect env futures min_delay max_delay downloaded_files w
    = (o, mk_world (fs_of w) (trace_of w ++ sleeps)
                   (draws_of (snd (collect env futures min_delay max_delay
                                           downloaded_files w))))
    /\ Forall (fun ev => match ev with Sleep _ => True | _ => False end) sleeps.
Proof.
  induction futures as [| future rest IH]; intros acc w.
  - exists (Returned acc), []. cbn. rewrite app_nil_r. destruct w. now split.
  - rewrite collect_step. destruct future as [filepath | e].
    + cbv zeta. destruct (Qle_bool 0 _).
      * match goal with
        | |- context [collect env rest min_delay max_delay ?acc' ?w'] =>
            destruct (IH acc' w') as (o & sleeps & Heq & Hs)
        end.
        rewrite Heq. cbn [fs_of trace_of draws_of snd].
        exists o. eexists (_ :: sleeps). split; [world_shape |].
        constructor; [exact I | exact Hs].
      * eexists. exists []. cbn [snd draws_of]. rewrite app_nil_r.
        split; [reflexivity | constructor].
    + exists (Raised e), []. cbn [snd]. rewrite app_nil_r. destruct w.
      split; [reflexivity | constructor].
Qed.

(** Deleting files shows nothing and, whatever happens, leaves every path
    that is not on the list as it was. *)
Lemma unlink_all_frame files : forall w,
  exists o fs',
    unlink_all files w = (o, mk_world fs' (trace_of w) (draws_of w))
    /\ (forall p, ~ In p files -> FS.lookup fs' p = FS.lookup (fs_of w) p).
Proof.
  induction files as [| f rest IH]; intros w.
  - exists (Returned tt), (fs_of w). destruct w. now split.
  - cbn [unlink_all]. unfold bind at 1. unfold unlink, update_fs, with_fs.
    destruct (FS.unlink (fs_of w) f) as [fs1 | e] eqn:Hu.
    + destruct (IH (mk_world fs1 (trace_of w) (draws_of w))) as (o & fs' & Heq & Hkept).
      rewrite Heq. cbn [fs_of trace_of draws_of] in *.
      exists o, fs'. split; [reflexivity |].
      intros p Hp. rewrite Hkept by (intros Hin; apply Hp; now right).
      unfold FS.unlink in Hu. destruct f as [| a f']; [discriminate |].
      destruct (FS.lookup (fs_of w) (a :: f')) as [[| c] |]; try discriminate.
      injection Hu as <-. apply ArchiveFacts.lookup_remove_other.
      intros ->. apply Hp. now left.
    + exists (Raised e), (fs_of w). now split.
Qed.

End PoolFacts.

(** A pool of width zero or less is refused: once the directories are made
    and the playlist is resolved, [download_playlist] raises [ValueError],
    and no download is attempted. *)
Theorem download_playlist_needs_a_worker :
  forall env playlist_url output_dir max_workers min_delay max_delay should_zip w
         playlist playlist_name playlist_dir w1,
    prepare env playlist_url output_dir w
    = (Returned (playlist, playlist_name, playlist_dir), w1) ->
    (max_workers <= 0)%Z ->
    download_playlist env playlist_url output_dir max_workers min_delay max_delay
                      should_zip w
    = (Raised (mk_exn ValueError "max_workers must be greater than 0"), w1).
Proof.
  intros env playlist_url output_dir max_workers min_delay max_delay should_zip w
         playlist playlist_name playlist_dir w1 Hprep Hmw.
  unfold download_playlist. unfold bind at 1. rewrite Hprep.
  unfold bind at 1. unfold thread_pool.
  destruct (Z.leb_spec max_workers 0) as [_ | Hlt]; [reflexivity | lia].
Qed.

Lemma download_playlist_needs_a_worker_witness :
  prepare Cases.both Scenario.playlist_url Scenario.output Scenario.empty_world
  = (Returned (Runs.mix [Scenario.track_a; Scenario.track_b], "Mix", Runs.mix_dir),
     Runs.prepared)
  /\ (0 <= 0)%Z
  /\ download_playlist Cases.both Scenario.playlist_url Scenario.output 0
                       default_min_delay default_max_delay false Scenario.empty_world
     = (Raised (mk_exn ValueError "max_workers must be greater than 0"), Runs.prepared).
Proof.
  split; [reflexivity |]. split; [discriminate |].
  exact (download_playlist_needs_a_worker
           Cases.both Scenario.playlist_url Scenario.output 0
           default_min_delay default_max_delay false Scenario.empty_world
           _ _ _ _ eq_refl (Z.le_refl 0)).
Defined.

(** A task that raised ends the run: [future.result()] raises its exception
    again when its turn comes in completion order.  The tasks consumed
    before it each got their delay; nothing is archived or deleted, and the
    files already downloaded stay where they are. *)
Theorem download_playlist_reraises_task_exception :
  forall env playlist_url output_dir max_workers min_delay max_delay should_zip w
         playlist playlist_name playlist_dir futures w2 before e after,
    tasks_end env playlist_url output_dir max_workers w
              playlist playlist_name playlist_dir futures w2 ->
    futures = before ++ Raised e :: after ->
    Forall came_back before ->
    (0 <= min_delay)%Z -> (0 <= max_delay)%Z ->
    exists delays,
      download_playlist env playlist_url output_dir max_workers min_delay max_delay
                        should_zip w
      = (Raised e,
         mk_world (fs_of w2) (trace_of w2 ++ delays) (draws_of w2 + List.length before))
      /\ List.length delays = List.length before
      /\ Forall (is_delay min_delay max_delay) delays.
Proof.
  intros env playlist_url output_dir max_workers min_delay max_delay should_zip w
         playlist playlist_name playlist_dir futures w2 before e after
         (w1 & Hprep & Hmw & Hrun) -> Hback Hmin Hmax.
  destruct (CollectFacts.collect_all_back env min_delay max_delay Hmin Hmax
              before [] w2 Hback) as (delays & Hcol & Hlen & Hdel).
  exists delays. split; [| now split].
  rewrite (CollectFacts.download_playlist_eq env playlist_url output_dir max_workers
             min_delay max_delay should_zip w playlist playlist_name playlist_dir
             w1 _ w2 Hprep Hmw Hrun).
  now rewrite PoolFacts.collect_app, Hcol, PoolFacts.collect_step.
Qed.

Lemma download_playlist_reraises_task_exception_witness :
  let w2 := mk_world (fs_of Runs.prepared
                      ++ [(Runs.intro_mp3,
                           File (Media "https://soundcloud.com/someone/intro"))])
                     (trace_of Runs.prepared
                      ++ [Sleep (1 # 2); Stat Runs.intro_mp3;
                          Log INFO (SuccessfullyDownloaded Runs.intro_mp3)])
                     0 in
  tasks_end Cases.interrupted_at_outro Scenario.playlist_url Scenario.output
            default_max_workers Scenario.empty_world
            (Runs.mix [Scenario.track_a; Scenario.track_b]) "Mix" Runs.mix_dir
            [Returned (Some Runs.intro_mp3); Raised Cases.interrupt] w2
  /\ fst (download_playlist Cases.interrupted_at_outro Scenario.playlist_url
                            Scenario.output default_max_workers
                            default_min_delay default_max_delay true
                            Scenario.empty_world)
     = Raised Cases.interrupt.
Proof.
  cbv zeta.
  assert (Ht : tasks_end Cases.interrupted_at_outro Scenario.playlist_url Scenario.output
                 default_max_workers Scenario.empty_world
                 (Runs.mix [Scenario.track_a; Scenario.track_b]) "Mix" Runs.mix_dir
                 [Returned (Some Runs.intro_mp3); Raised Cases.interrupt]
                 (mk_world (fs_of Runs.prepared
                            ++ [(Runs.intro_mp3,
                                 File (Media "https://soundcloud.com/someone/intro"))])
                           (trace_of Runs.prepared
                            ++ [Sleep (1 # 2); Stat Runs.intro_mp3;
                                Log INFO (SuccessfullyDownloaded Runs.intro_mp3)])
                           0)).
  { exists Runs.prepared. split; [reflexivity |]. split; reflexivity. }
  split; [exact Ht |].
  destruct (download_playlist_reraises_task_exception
              Cases.interrupted_at_outro Scenario.playlist_url Scenario.output
              default_max_workers default_min_delay default_max_delay true
              Scenario.empty_world _ _ _ _ _
              [Returned (Some Runs.intro_mp3)] Cases.interrupt [] Ht eq_refl)
    as (delays & Heq & _).
  - repeat constructor. now exists (Some Runs.intro_mp3).
  - discriminate.
  - discriminate.
  - now rewrite Heq.
Defined.

(** Delay bounds that are both negative make the first [time.sleep] raise
    [ValueError]: with at least one task, and although every download has
    run by then, [download_playlist] neither returns nor archives. *)
Theorem download_playlist_negative_delays :
  forall env playlist_url output_dir max_workers min_delay max_delay should_zip w
         playlist playlist_name playlist_dir first rest w2,
    tasks_end env playlist_url output_dir max_workers w
              playlist playlist_name playlist_dir (Returned first :: rest) w2 ->
    (min_delay < 0)%Z -> (max_delay < 0)%Z ->
    download_playlist env playlist_url output_dir max_workers min_delay max_delay
                      should_zip w
    = (Raised (mk_exn ValueError "sleep length must be non-negative"),
       mk_world (fs_of w2) (trace_of w2) (S (draws_of w2))).
Proof.
  intros env playlist_url output_dir max_workers min_delay max_delay should_zip w
         playlist playlist_name playlist_dir first rest w2
         (w1 & Hprep & Hmw & Hrun) Hmin Hmax.
  rewrite (CollectFacts.download_playlist_eq env playlist_url output_dir max_workers
             min_delay max_delay should_zip w playlist playlist_name playlist_dir
             w1 _ w2 Hprep Hmw Hrun).
  rewrite PoolFacts.collect_step. cbv zeta.
  pose proof (CollectFacts.random_unit_range env (draws_of w2)) as [Hu0 Hu1].
  pose proof (CollectFacts.uniform_between min_delay max_delay _ Hu0 Hu1) as [_ Hhi].
  destruct (Qle_bool 0 _) eqn:Hq; [| reflexivity].
  apply Qle_bool_iff in Hq.
  assert (Hneg : (inject_Z (Z.max min_delay max_delay) < 0)%Q).
  { change 0%Q with (inject_Z 0). rewrite <- Zlt_Qlt. lia. }
  exfalso. apply (Qlt_irrefl 0).
  eapply Qle_lt_trans; [exact Hq |]. eapply Qle_lt_trans; [exact Hhi | exact Hneg].
Qed.

Lemma download_playlist_negative_delays_witness :
  let w2 := mk_world (fs_of Runs.prepared)
                     (trace_of Runs.prepared
                      ++ [Runs.skipped Scenario.track_a; Runs.skipped Scenario.track_b])
                     0 in
  tasks_end Runs.all_blocked Scenario.playlist_url Scenario.output default_max_workers
            Scenario.empty_world
            (Runs.mix [Scenario.track_a; Scenario.track_b]) "Mix" Runs.mix_dir
            [Returned None; Returned None] w2
  /\ (-2 < 0)%Z /\ (-1 < 0)%Z
  /\ download_playlist Runs.all_blocked Scenario.playlist_url Scenario.output
                       default_max_workers (-2) (-1) false Scenario.empty_world
     = (Raised (mk_exn ValueError "sleep length must be non-negative"),
        mk_world (fs_of w2) (trace_of w2) 1).
Proof.
  cbv zeta.
  assert (Ht : tasks_end Runs.all_blocked Scenario.playlist_url Scenario.output
                 default_max_workers Scenario.empty_world
                 (Runs.mix [Scenario.track_a; Scenario.track_b]) "Mix" Runs.mix_dir
                 [Returned None; Returned None]
                 (mk_world (fs_of Runs.prepared)
                    (trace_of Runs.prepared
                     ++ [Runs.skipped Scenario.track_a; Runs.skipped Scenario.track_b])
                    0)).
  { exists Runs.prepared. split; [reflexivity |]. split; reflexivity. }
  split; [exact Ht |]. split; [reflexivity |]. split; [reflexivity |].
  exact (download_playlist_negative_delays
           Runs.all_blocked Scenario.playlist_url Scenario.output default_max_workers
           (-2) (-1) false Scenario.empty_world _ _ _ _ _ _ Ht eq_refl eq_refl).
Defined.

Lemma download_playlist_without_archive_witness :
  let futures := [Returned (Some Runs.intro_mp3); Returned None] in
  let w2 := mk_world (fs_of Runs.prepared
                      ++ [(Runs.intro_mp3,
                           File (Media "https://soundcloud.com/someone/intro"))])
                     (trace_of Runs.prepared
                      ++ [Sleep (1 # 2); Stat Runs.intro_mp3;
                          Log INFO (SuccessfullyDownloaded Runs.intro_mp3);
                          Runs.skipped Scenario.track_b])
                     0 in
  tasks_end Cases.intro_only Scenario.playlist_url Scenario.output default_max_workers
            Scenario.empty_world
            (Runs.mix [Scenario.track_a; Scenario.track_b]) "Mix" Runs.mix_dir futures w2
  /\ Forall came_back futures
  /\ exists w3,
      download_playlist Cases.intro_only Scenario.playlist_url Scenario.output
                        default_max_workers default_min_delay default_max_delay false
                        Scenario.empty_world
      = (Returned (Some Runs.mix_dir), w3)
      /\ fs_of w3 = fs_of w2.
Proof.
  cbv zeta.
  assert (Ht : tasks_end Cases.intro_only Scenario.playlist_url Scenario.output
                 default_max_workers Scenario.empty_world
                 (Runs.mix [Scenario.track_a; Scenario.track_b]) "Mix" Runs.mix_dir
                 [Returned (Some Runs.intro_mp3); Returned None]
                 (mk_world (fs_of Runs.prepared
                            ++ [(Runs.intro_mp3,
                                 File (Media "https://soundcloud.com/someone/intro"))])
                           (trace_of Runs.prepared
                            ++ [Sleep (1 # 2); Stat Runs.intro_mp3;
                                Log INFO (SuccessfullyDownloaded Runs.intro_mp3);
                                Runs.skipped Scenario.track_b])
                           0)).
  { exists Runs.prepared. split; [reflexivity |]. split; reflexivity. }
  assert (Hb : Forall came_back [Returned (Some Runs.intro_mp3); Returned None]).
  { repeat constructor; eexists; reflexivity. }
  split; [exact Ht |]. split; [exact Hb |].
  destruct (OrchestrationFacts.download_playlist_without_archive
              Cases.intro_only Scenario.playlist_url Scenario.output default_max_workers
              default_min_delay default_max_delay Scenario.empty_world
              _ _ _ _ _ Ht Hb) as (w3 & Heq & Hfs & _); [discriminate | discriminate |].
  exists w3. split; [exact Heq | exact Hfs].
Defined.

Module FinishFacts.

(** The last step shows at most the error line, whatever it does to the
    files and however it ends. *)
Lemma finish_logs_only env output_dir playlist_name playlist_dir should_zip files w :
  exists logs,
    trace_of (snd (finish env output_dir playlist_name playlist_dir should_zip files w))
    = trace_of w ++ logs
    /\ Forall is_log logs.
Proof.
  destruct files as [| f files].
  - exists [Log ERROR NoFilesDownloaded]. split; [reflexivity | repeat constructor].
  - exists []. rewrite app_nil_r. split; [| constructor].
    unfold finish. destruct should_zip; [| reflexivity].
    unfold bind at 1. unfold with_fs at 1.
    destruct (create_zip env _ _ _ _) as [[u | e] fs1]; [| reflexivity].
    unfold bind at 1.
    destruct (PoolFacts.unlink_all_frame (f :: files)
                (mk_world fs1 (trace_of w) (draws_of w))) as ([u' | e] & fs2 & Heq & _);
      rewrite Heq; [| reflexivity].
    unfold bind, rmtree, update_fs, with_fs, ret. cbn [fs_of trace_of draws_of].
    destruct (FS.rmtree fs2 playlist_dir); reflexivity.
Qed.

End FinishFacts.

(** The politeness delay, as far as a sequential run shows it.  When every
    task came back, with a file or without, and the bounds are not
    negative, the loop over the futures sleeps once per task, each time for
    a length between the two bounds; these sleeps come after everything the
    tasks showed, and after them [download_playlist] only logs. *)
Theorem download_playlist_sleeps_once_per_task :
  forall env playlist_url output_dir max_workers min_delay max_delay should_zip w
         playlist playlist_name playlist_dir futures w2,
    tasks_end env playlist_url output_dir max_workers w
              playlist playlist_name playlist_dir futures w2 ->
    Forall came_back futures ->
    (0 <= min_delay)%Z -> (0 <= max_delay)%Z ->
    exists delays logs,
      trace_of (snd (download_playlist env playlist_url output_dir max_workers
                                       min_delay max_delay should_zip w))
      = trace_of w2 ++ delays ++ logs
      /\ List.length delays = List.length futures
      /\ Forall (is_delay min_delay max_delay) delays
      /\ Forall is_log logs.
Proof.
  intros env playlist_url output_dir max_workers min_delay max_delay should_zip w
         playlist playlist_name playlist_dir futures w2
         (w1 & Hprep & Hmw & Hrun) Hback Hmin Hmax.
  destruct (CollectFacts.collect_all_back env min_delay max_delay Hmin Hmax
              futures [] w2 Hback) as (delays & Hcol & Hlen & Hdel).
  rewrite (CollectFacts.download_playlist_eq env playlist_url output_dir max_workers
             min_delay max_delay should_zip w playlist playlist_name playlist_dir
             w1 futures w2 Hprep Hmw Hrun).
  rewrite Hcol.
  destruct (FinishFacts.finish_logs_only env output_dir playlist_name playlist_dir
              should_zip ([] ++ flat_map file_of futures)
              (mk_world (fs_of w2) (trace_of w2 ++ delays)
                        (draws_of w2 + List.length futures))) as (logs & Htr & Hlogs).
  exists delays, logs. cbn [trace_of] in Htr. rewrite Htr, <- app_assoc.
  repeat split; assumption.
Qed.

Lemma download_playlist_sleeps_once_per_task_witness :
  let futures := [Returned (Some Runs.intro_mp3); Returned None] in
  let w2 := mk_world (fs_of Runs.prepared
                      ++ [(Runs.intro_mp3,
                           File (Media "https://soundcloud.com/someone/intro"))])
                     (trace_of Runs.prepared
                      ++ [Sleep (1 # 2); Stat Runs.intro_mp3;
                          Log INFO (SuccessfullyDownloaded Runs.intro_mp3);
                          Runs.skipped Scenario.track_b])
                     0 in
  tasks_end Cases.intro_only Scenario.playlist_url Scenario.output default_max_workers
            Scenario.empty_world
            (Runs.mix [Scenario.track_a; Scenario.track_b]) "Mix" Runs.mix_dir futures w2
  /\ exists delays logs,
      trace_of (snd (download_playlist Cases.intro_only Scenario.playlist_url
                                       Scenario.output default_max_workers
                                       default_min_delay default_max_delay true
                                       Scenario.empty_world))
      = trace_of w2 ++ delays ++ logs
      /\ List.length delays = 2.
Proof.
  cbv zeta.
  assert (Ht : tasks_end Cases.intro_only Scenario.playlist_url Scenario.output
                 default_max_workers Scenario.empty_world
                 (Runs.mix [Scenario.track_a; Scenario.track_b]) "Mix" Runs.mix_dir
                 [Returned (Some Runs.intro_mp3); Returned None]
                 (mk_world (fs_of Runs.prepared
                            ++ [(Runs.intro_mp3,
                                 File (Media "https://soundcloud.com/someone/intro"))])
                           (trace_of Runs.prepared
                            ++ [Sleep (1 # 2); Stat Runs.intro_mp3;
                                Log INFO (SuccessfullyDownloaded Runs.intro_mp3);
                                Runs.skipped Scenario.track_b])
                           0)).
  { exists Runs.prepared. split; [reflexivity |]. split; reflexivity. }
  split; [exact Ht |].
  destruct (download_playlist_sleeps_once_per_task
              Cases.intro_only Scenario.playlist_url Scenario.output default_max_workers
              default_min_delay default_max_delay true Scenario.empty_world
              _ _ _ _ _ Ht) as (delays & logs & Htr & Hlen & _).
  - repeat constructor; eexists; reflexivity.
  - discriminate.
  - discriminate.
  - exists delays, logs. split; [exact Htr | exact Hlen].
Defined.

Module PrepareFacts.

Lemma mkdir_made fs p fs' :
  FS.mkdir fs p = Returned fs' ->
  FS.is_dir fs' p = true
  /\ (forall q, FS.is_dir fs q = true -> FS.is_dir fs' q = true).
Proof.
  unfold FS.mkdir. destruct p as [| a p']; [intros [= <-]; now split |].
  set (p := a :: p').
  destruct (FS.lookup fs p) as [[| c] |] eqn:L; try discriminate.
  - intros [= <-]. split; [| easy]. unfold FS.is_dir, p. fold p. now rewrite L.
  - destruct (FS.is_dir fs (Path.parent p));
      [| destruct (FS.exists_ fs (Path.parent p)); discriminate].
    intros [= <-]. split.
    + unfold FS.is_dir, p. fold p. rewrite ArchiveFacts.lookup_app, L.
      cbn [FS.lookup]. now rewrite ArchiveFacts.path_eqb_refl.
    + intros q Hq. unfold FS.is_dir in *. destruct q as [| b q']; [reflexivity |].
      rewrite ArchiveFacts.lookup_app.
      destruct (FS.lookup fs (b :: q')) as [[| c] |]; easy.
Qed.

Lemma mkdir_from_made todo : forall fs done fs',
  FS.mkdir_from fs done todo = Returned fs' ->
  FS.is_dir fs done = true ->
  FS.is_dir fs' (done ++ todo) = true
  /\ (forall q, FS.is_dir fs q = true -> FS.is_dir fs' q = true).
Proof.
  induction todo as [| c todo IH]; intros fs done fs' H Hdone.
  - injection H as <-. rewrite app_nil_r. now split.
  - cbn in H. destruct (FS.mkdir fs (done ++ [c])) as [fs1 |] eqn:Hm; [| discriminate].
    destruct (mkdir_made _ _ _ Hm) as [Hmade Hkept].
    destruct (IH fs1 (done ++ [c]) fs' H Hmade) as [Hall Hkept'].
    rewrite <- app_assoc in Hall. split; [exact Hall |].
    intros q Hq. apply Hkept', Hkept, Hq.
Qed.

End PrepareFacts.

(** When the preparation of [download_playlist] returns, the output
    directory and the playlist directory both exist as directories, the
    latter being the output directory joined with the sanitized playlist
    title (a title that sanitizes to the empty name gives the output
    directory itself). *)
Theorem prepare_makes_both_directories :
  forall env playlist_url output_dir w playlist playlist_name playlist_dir w1,
    prepare env playlist_url output_dir w
    = (Returned (playlist, playlist_name, playlist_dir), w1) ->
    FS.is_dir (fs_of w1) output_dir = true
    /\ FS.is_dir (fs_of w1) playlist_dir = true
    /\ call_clean_filename env (Playlist.title playlist) = Returned playlist_name
    /\ playlist_dir = Path.joinpath output_dir playlist_name.
Proof.
  intros env playlist_url output_dir w playlist playlist_name playlist_dir w1.
  unfold prepare.
  unfold bind at 1. unfold mkdir_parents, update_fs, with_fs.
  destruct (FS.mkdir_parents (fs_of w) output_dir) as [fs1 |] eqn:Hmk; [| discriminate].
  unfold bind at 1. unfold log at 1.
  unfold bind at 1.
  destruct (get_playlist_info env playlist_url _) as [[pl | e] wg] eqn:Hg; [| discriminate].
  assert (Hwg : fs_of wg = fs1).
  { revert Hg. unfold get_playlist_info, bind, lift, raise, ret.
    destruct (extract_info env (VStr playlist_url)) as [answer |]; [| discriminate].
    destruct answer; try discriminate.
    destruct (py_iter _); [| discriminate].
    destruct (dict_item kvs "id"); [| discriminate].
    destruct (dict_item kvs "title"); [| discriminate].
    now intros [= _ <-]. }
  unfold bind at 1. unfold lift at 1.
  destruct (call_clean_filename env (Playlist.title pl)) as [name |] eqn:Hname;
    [| discriminate].
  unfold bind at 1. unfold mkdir, update_fs, with_fs.
  destruct (FS.mkdir (fs_of wg) (Path.joinpath output_dir name)) as [fs2 |] eqn:Hmk2;
    [| discriminate].
  unfold ret. intros [= <- <- <- <-]. cbn [fs_of].
  destruct (PrepareFacts.mkdir_made _ _ _ Hmk2) as [Hmade Hkept].
  destruct (PrepareFacts.mkdir_from_made output_dir (fs_of w) [] fs1 Hmk eq_refl)
    as [Hout _].
  cbn [app] in Hout. rewrite Hwg in Hkept.
  repeat split; [apply Hkept, Hout | exact Hmade | exact Hname].
Qed.

Lemma prepare_makes_both_directories_witness :
  prepare Cases.both Scenario.playlist_url Scenario.output Scenario.empty_world
  = (Returned (Runs.mix [Scenario.track_a; Scenario.track_b], "Mix", Runs.mix_dir),
     Runs.prepared)
  /\ FS.is_dir (fs_of Runs.prepared) Scenario.output = true
  /\ FS.is_dir (fs_of Runs.prepared) Runs.mix_dir = true.
Proof.
  split; [reflexivity |].
  destruct (prepare_makes_both_directories
              Cases.both Scenario.playlist_url Scenario.output Scenario.empty_world
              _ _ _ _ eq_refl) as (Hout & Hdir & _).
  split; [exact Hout | exact Hdir].
Defined.

Module IsolationFacts.

(** The tasks of a list, run from worlds with the same files and the same
    random source, end alike whatever was shown before. *)
Lemma run_tasks_frame env playlist_dir tracks : forall w,
  exists futures fs' shown,
    forall tr, run_tasks env tracks playlist_dir (mk_world (fs_of w) tr (draws_of w))
               = (Returned futures, mk_world fs' (tr ++ shown) (draws_of w)).
Proof.
  induction tracks as [| t rest IH]; intros w.
  - exists [], (fs_of w), []. intros tr. cbn. now rewrite app_nil_r.
  - destruct (TrackFacts.download_track_frame env t playlist_dir w)
      as (o & fs1 & shown1 & Hrun & _).
    destruct (IH (mk_world fs1 [] (draws_of w))) as (futures & fs2 & shown2 & Hrest).
    cbn [fs_of draws_of] in Hrest.
    exists (o :: futures), fs2, (shown1 ++ shown2). intros tr.
    cbn [run_tasks]. rewrite Hrun, Hrest. now rewrite app_assoc.
Qed.

End IsolationFacts.

(** Failure isolation across a playlist.  Tracks whose probe fails with an
    [Exception] leave no mark on the others: the files collected from the
    tasks, and the file system the tasks leave, are those of the same list
    with the failing tracks taken out. *)
Theorem failed_tracks_do_not_disturb_the_rest :
  forall env (failing : Track.t -> bool) playlist_dir tracks w,
    (forall t, In t tracks -> failing t = true ->
               exists e, is_Exception e = true /\ probe_fails env t e) ->
    exists futures futures' w1 w1',
      run_tasks env tracks playlist_dir w = (Returned futures, w1)
      /\ run_tasks env (List.filter (fun t => negb (failing t)) tracks) playlist_dir w
         = (Returned futures', w1')
      /\ flat_map file_of futures = flat_map file_of futures'
      /\ fs_of w1 = fs_of w1'
      /\ List.length futures = List.length tracks.
Proof.
  intros env failing playlist_dir tracks.
  assert (G : forall fs n tr tr',
             (forall t, In t tracks -> failing t = true ->
                        exists e, is_Exception e = true /\ probe_fails env t e) ->
             exists futures futures' w1 w1',
               run_tasks env tracks playlist_dir (mk_world fs tr n) = (Returned futures, w1)
               /\ run_tasks env (List.filter (fun t => negb (failing t)) tracks)
                            playlist_dir (mk_world fs tr' n)
                  = (Returned futures', w1')
               /\ flat_map file_of futures = flat_map file_of futures'
               /\ fs_of w1 = fs_of w1'
               /\ List.length futures = List.length tracks).
  { induction tracks as [| t rest IH]; intros fs n tr tr' Hfail.
    - exists [], [], (mk_world fs tr n), (mk_world fs tr' n). now repeat split.
    - assert (Hrest : forall t', In t' rest -> failing t' = true ->
                                 exists e, is_Exception e = true /\ probe_fails env t' e).
      { intros t' Hin. apply Hfail. now right. }
      cbn [List.filter]. destruct (failing t) eqn:Ft; cbn [negb].
      + destruct (Hfail t (or_introl eq_refl) Ft) as (e & He & Hp).
        cbn [run_tasks].
        rewrite (DownloadTrackFacts.probe_failure env t playlist_dir _ e He Hp).
        cbn [fs_of trace_of draws_of].
        destruct (IH fs n (tr ++ [Log INFO (SkippingProbe (Track.title t)
                                                          (Track.url t) e)])
                     tr' Hrest)
          as (futures & futures' & w1 & w1' & Hr & Hr' & Hfiles & Hfs & Hlen).
        rewrite Hr. exists (Returned None :: futures), futures', w1, w1'.
        cbn. repeat split; try assumption. now rewrite Hlen.
      + destruct (TrackFacts.download_track_frame env t playlist_dir (mk_world fs tr n))
          as (o & fs1 & shown & Hrun & _).
        cbn [fs_of draws_of] in Hrun. cbn [run_tasks].
        rewrite (Hrun tr), (Hrun tr').
        destruct (IH fs1 n (tr ++ shown) (tr' ++ shown) Hrest)
          as (futures & futures' & w1 & w1' & Hr & Hr' & Hfiles & Hfs & Hlen).
        rewrite Hr, Hr'. exists (o :: futures), (o :: futures'), w1, w1'.
        cbn. repeat split; try assumption; [now rewrite Hfiles | now rewrite Hlen]. }
  intros w Hfail.
  destruct (G (fs_of w) (draws_of w) (trace_of w) (trace_of w) Hfail)
    as (futures & futures' & w1 & w1' & H).
  rewrite TrackFacts.world_eta in H. now exists futures, futures', w1, w1'.
Qed.

Lemma failed_tracks_do_not_disturb_the_rest_witness :
  let failing := fun t => match Track.url t with
                          | VStr "https://soundcloud.com/someone/outro" => true
                          | _ => false
                          end in
  let tracks := map track_of [Scenario.track_b; Scenario.track_a] in
  (forall t, In t tracks -> failing t = true ->
             exists e, is_Exception e = true /\ probe_fails Cases.intro_only t e)
  /\ exists futures futures' w1 w1',
      run_tasks Cases.intro_only tracks Runs.mix_dir Runs.prepared = (Returned futures, w1)
      /\ run_tasks Cases.intro_only [track_of Scenario.track_a] Runs.mix_dir Runs.prepared
         = (Returned futures', w1')
      /\ flat_map file_of futures = flat_map file_of futures'
      /\ fs_of w1 = fs_of w1'.
Proof.
  cbv zeta.
  assert (Hfail : forall t,
             In t (map track_of [Scenario.track_b; Scenario.track_a]) ->
             match Track.url t with
             | VStr "https://soundcloud.com/someone/outro" => true
             | _ => false
             end = true ->
             exists e, is_Exception e = true /\ probe_fails Cases.intro_only t e).
  { intros t [<- | [<- | []]] Hf.
    - exists Scenario.unavailable. split; [reflexivity | left; reflexivity].
    - discriminate Hf. }
  split; [exact Hfail |].
  destruct (failed_tracks_do_not_disturb_the_rest
              Cases.intro_only _ Runs.mix_dir
              (map track_of [Scenario.track_b; Scenario.track_a]) Runs.prepared Hfail)
    as (futures & futures' & w1 & w1' & Hr & Hr' & Hfiles & Hfs & _).
  exists futures, futures', w1, w1'. repeat split; assumption.
Defined.

Module CleanupFacts.

Lemma path_eq_dec (p q : path) : {p = q} + {p <> q}.
Proof. exact (list_eq_dec string_dec p q). Qed.

(** Deleting stumbles on the first path that is no longer there: on a list
    of regular files that names one of them twice, or names a missing one,
    the loop raises [FileNotFoundError]. *)
Lemma unlink_all_stumbles files : forall w,
  Forall (fun f => f <> [] /\ (FS.is_file (fs_of w) f = true
                               \/ FS.lookup (fs_of w) f = None)) files ->
  ~ NoDup files \/ Exists (fun f => FS.lookup (fs_of w) f = None) files ->
  exists e w', unlink_all files w = (Raised e, w')
               /\ exn_class_of e = FileNotFoundError.
Proof.
  induction files as [| f rest IH]; intros w Hall Hbad.
  - destruct Hbad as [Hd | Hex]; [destruct Hd; constructor | inversion Hex].
  - inversion Hall as [| ? ? [Hnonroot Hf] Hrest]; subst.
    destruct f as [| a f']; [congruence |].
    cbn [unlink_all]. unfold bind at 1. unfold unlink, update_fs, with_fs, FS.unlink.
    destruct (FS.lookup (fs_of w) (a :: f')) as [[| c] |] eqn:L.
    + destruct Hf as [Hf | Hf]; [unfold FS.is_file in Hf; rewrite L in Hf |]; discriminate.
    + set (w1 := mk_world (FS.remove (fs_of w) (a :: f')) (trace_of w) (draws_of w)).
      destruct (IH w1) as (e & w' & Heq & Hclass).
      * rewrite Forall_forall in Hrest |- *. intros g Hg.
        destruct (Hrest g Hg) as [Hgn Hgf]. split; [exact Hgn |]. cbn.
        destruct (path_eq_dec g (a :: f')) as [-> | Hne].
        -- right. apply ArchiveFacts.lookup_remove_same.
        -- unfold FS.is_file.
           rewrite (ArchiveFacts.lookup_remove_other _ _ _ Hne). exact Hgf.
      * destruct Hbad as [Hd | Hex].
        -- destruct (in_dec path_eq_dec (a :: f') rest) as [Hin | Hnin].
           ++ right. apply Exists_exists. exists (a :: f'). split; [exact Hin |].
              cbn. apply ArchiveFacts.lookup_remove_same.
           ++ left. intros Hnd. apply Hd. now constructor.
        -- right. inversion Hex as [? ? Hhead | ? ? Htail]; subst; [congruence |].
           apply Exists_exists in Htail as (g & Hg & Hnone).
           apply Exists_exists. exists g. split; [exact Hg |]. cbn.
           rewrite ArchiveFacts.lookup_remove_other; [exact Hnone |].
           intros ->. congruence.
      * exists e, w'. now rewrite Heq.
    + eexists. eexists. split; reflexivity.
Qed.

End CleanupFacts.

(** The archival step where it works.  If [create_zip] succeeds and writes
    nothing but the archive, and the collected paths are pairwise distinct
    regular files inside the playlist directory, with the archive outside
    it, then the archive path is returned; nothing at or below the playlist
    directory is left, whether it was collected or not, and everything
    outside that directory, the archive included, is as [create_zip] left
    it. *)
Theorem archive_step_clears_the_directory :
  forall env output_dir playlist_name playlist_dir files w fs1,
    files <> [] ->
    NoDup files ->
    create_zip env files (Path.joinpath output_dir (playlist_name ++ ".zip"))
               playlist_dir (fs_of w)
    = (Returned tt, fs1) ->
    (forall p, p <> Path.joinpath output_dir (playlist_name ++ ".zip") ->
               FS.lookup fs1 p = FS.lookup (fs_of w) p) ->
    Forall (fun f => FS.is_file (fs_of w) f = true
                     /\ Path.is_prefix playlist_dir f = true) files ->
    FS.is_dir (fs_of w) playlist_dir = true ->
    Path.is_prefix playlist_dir (Path.joinpath output_dir (playlist_name ++ ".zip")) = false ->
    exists fs',
      finish env output_dir playlist_name playlist_dir true files w
      = (Returned (Some (Path.joinpath output_dir (playlist_name ++ ".zip"))),
         mk_world fs' (trace_of w) (draws_of w))
      /\ (forall p, Path.is_prefix playlist_dir p = true -> FS.lookup fs' p = None)
      /\ (forall p, Path.is_prefix playlist_dir p = false ->
                    FS.lookup fs' p = FS.lookup fs1 p).
Proof.
  intros env output_dir playlist_name playlist_dir files w fs1.
  set (zip_filename := Path.joinpath output_dir (playlist_name ++ ".zip")).
  intros Hne Hnd Hzip Hframe Hfiles Hdir Hout.
  destruct playlist_dir as [| a pd]; [discriminate Hout |].
  set (playlist_dir := a :: pd) in *.
  assert (Hin : forall f, In f files ->
                  f <> [] /\ f <> zip_filename /\ f <> playlist_dir
                  /\ FS.is_file (fs_of w) f = true
                  /\ Path.is_prefix playlist_dir f = true).
  { intros f Hf. rewrite Forall_forall in Hfiles.
    destruct (Hfiles f Hf) as [Hfile Hpre]. repeat split; try assumption.
    - intros ->. discriminate Hpre.
    - intros ->. congruence.
    - intros ->. unfold FS.is_file in Hfile. unfold FS.is_dir, playlist_dir in Hdir.
      fold playlist_dir in Hdir.
      destruct (FS.lookup (fs_of w) playlist_dir) as [[| c] |]; discriminate. }
  rewrite (ArchiveFacts.finish_nonempty env output_dir playlist_name playlist_dir
             files w Hne).
  fold zip_filename. unfold bind at 1. unfold with_fs at 1. rewrite Hzip.
  set (w1 := mk_world fs1 (trace_of w) (draws_of w)).
  destruct (ArchiveFacts.unlink_all_distinct files w1 Hnd) as (fs2 & Hun & Hgone & Hkept).
  { rewrite Forall_forall. intros f Hf.
    destruct (Hin f Hf) as (Hf1 & Hf2 & _ & Hf4 & _). split; [exact Hf1 |].
    cbn. unfold FS.is_file. now rewrite Hframe. }
  unfold bind at 1. rewrite Hun. cbn [trace_of draws_of].
  assert (Hdir2 : FS.is_dir fs2 playlist_dir = true).
  { unfold FS.is_dir, playlist_dir. fold playlist_dir.
    rewrite Hkept by (intros Hf; now destruct (Hin _ Hf) as (_ & _ & Hf3 & _)).
    cbn. rewrite Hframe.
    - unfold FS.is_dir, playlist_dir in Hdir. exact Hdir.
    - intros E. rewrite <- E, ArchiveFacts.is_prefix_refl in Hout. discriminate. }
  unfold bind at 1. unfold rmtree, update_fs, with_fs, FS.rmtree.
  cbn [fs_of trace_of draws_of]. rewrite Hdir2.
  eexists. split; [unfold ret; reflexivity |]. split.
  - intros p Hp. now rewrite ArchiveFacts.lookup_rmtree, Hp.
  - intros p Hp. rewrite ArchiveFacts.lookup_rmtree, Hp.
    apply Hkept. intros Hf. destruct (Hin _ Hf) as (_ & _ & _ & _ & Hpre). congruence.
Qed.

(** The archival step where it breaks.  If the collected paths are regular
    files inside the playlist directory but one of them was collected twice,
    then, however well [create_zip] did, the step raises [FileNotFoundError]
    while deleting: no archive path is returned, the playlist directory is
    still there, and the archive that was written stays. *)
Theorem archive_step_fails_on_repeated_path :
  forall env output_dir playlist_name playlist_dir files w fs1,
    ~ NoDup files ->
    create_zip env files (Path.joinpath output_dir (playlist_name ++ ".zip"))
               playlist_dir (fs_of w)
    = (Returned tt, fs1) ->
    (forall p, p <> Path.joinpath output_dir (playlist_name ++ ".zip") ->
               FS.lookup fs1 p = FS.lookup (fs_of w) p) ->
    Forall (fun f => FS.is_file (fs_of w) f = true
                     /\ Path.is_prefix playlist_dir f = true) files ->
    FS.is_dir (fs_of w) playlist_dir = true ->
    Path.is_prefix playlist_dir (Path.joinpath output_dir (playlist_name ++ ".zip")) = false ->
    exists e fs',
      finish env output_dir playlist_name playlist_dir true files w
      = (Raised e, mk_world fs' (trace_of w) (draws_of w))
      /\ exn_class_of e = FileNotFoundError
      /\ FS.is_dir fs' playlist_dir = true
      /\ FS.lookup fs' (Path.joinpath output_dir (playlist_name ++ ".zip"))
         = FS.lookup fs1 (Path.joinpath output_dir (playlist_name ++ ".zip")).
Proof.
  intros env output_dir playlist_name playlist_dir files w fs1.
  set (zip_filename := Path.joinpath output_dir (playlist_name ++ ".zip")).
  intros Hdup Hzip Hframe Hfiles Hdir Hout.
  destruct playlist_dir as [| a pd]; [discriminate Hout |].
  set (playlist_dir := a :: pd) in *.
  assert (Hne : files <> []).
  { intros ->. apply Hdup. constructor. }
  assert (Hin : forall f, In f files ->
                  f <> [] /\ f <> zip_filename /\ f <> playlist_dir
                  /\ FS.is_file (fs_of w) f = true).
  { intros f Hf. rewrite Forall_forall in Hfiles.
    destruct (Hfiles f Hf) as [Hfile Hpre]. repeat split; try assumption.
    - intros ->. discriminate Hpre.
    - intros ->. congruence.
    - intros ->. unfold FS.is_file in Hfile. unfold FS.is_dir, playlist_dir in Hdir.
      fold playlist_dir in Hdir.
      destruct (FS.lookup (fs_of w) playlist_dir) as [[| c] |]; discriminate. }
  rewrite (ArchiveFacts.finish_nonempty env output_dir playlist_name playlist_dir
             files w Hne).
  fold zip_filename. unfold bind at 1. unfold with_fs at 1. rewrite Hzip.
  set (w1 := mk_world fs1 (trace_of w) (draws_of w)).
  destruct (CleanupFacts.unlink_all_stumbles files w1) as (e & w' & Hun & Hclass).
  { rewrite Forall_forall. intros f Hf.
    destruct (Hin f Hf) as (Hf1 & Hf2 & _ & Hf4). split; [exact Hf1 |].
    left. cbn. unfold FS.is_file. now rewrite Hframe. }
  { now left. }
  destruct (PoolFacts.unlink_all_frame files w1) as (o & fs2 & Hfr & Hkept).
  rewrite Hun in Hfr. injection Hfr as <- ->.
  unfold bind at 1. rewrite Hun.
  exists e, fs2. split; [reflexivity |]. split; [exact Hclass |].
  cbn [fs_of] in Hkept. split.
  - unfold FS.is_dir, playlist_dir. fold playlist_dir.
    rewrite Hkept by (intros Hf; now destruct (Hin _ Hf) as (_ & _ & Hf3 & _)).
    rewrite Hframe.
    + unfold FS.is_dir, playlist_dir in Hdir. exact Hdir.
    + intros E. rewrite <- E, ArchiveFacts.is_prefix_refl in Hout. discriminate.
  - apply Hkept. intros Hf. now destruct (Hin _ Hf) as (_ & Hf2 & _).
Qed.

Lemma archive_step_clears_the_directory_witness :
  let w := mk_world Cases.files_of_both [] 0 in
  let files := [Runs.intro_mp3; Cases.outro_mp3] in
  let fs1 := FS.write Cases.files_of_both Cases.mix_zip
                      (Archive [["Intro.mp3"]; ["Outro.mp3"]]) in
  (NoDup files
   /\ create_zip Cases.both files Cases.mix_zip Runs.mix_dir (fs_of w) = (Returned tt, fs1)
   /\ Path.is_prefix Runs.mix_dir Cases.mix_zip = false)
  /\ exists fs',
      finish Cases.both Scenario.output "Mix" Runs.mix_dir true files w
      = (Returned (Some Cases.mix_zip), mk_world fs' [] 0)
      /\ FS.lookup fs' Runs.intro_mp3 = None
      /\ FS.lookup fs' Runs.mix_dir = None
      /\ FS.lookup fs' Cases.mix_zip = Some (File (Archive [["Intro.mp3"]; ["Outro.mp3"]])).
Proof.
  cbv zeta.
  assert (Hnd : NoDup [Runs.intro_mp3; Cases.outro_mp3]).
  { repeat constructor; cbn; intuition discriminate. }
  split; [split; [exact Hnd | split; reflexivity] |].
  destruct (archive_step_clears_the_directory
              Cases.both Scenario.output "Mix" Runs.mix_dir
              [Runs.intro_mp3; Cases.outro_mp3] (mk_world Cases.files_of_both [] 0)
              (FS.write Cases.files_of_both Cases.mix_zip
                        (Archive [["Intro.mp3"]; ["Outro.mp3"]])))
    as (fs' & Heq & Hbelow & Hout).
  - discriminate.
  - exact Hnd.
  - reflexivity.
  - intros p Hp. now apply ArchiveFacts.lookup_write_other.
  - repeat constructor.
  - reflexivity.
  - reflexivity.
  - exists fs'. split; [exact Heq |].
    split; [now apply Hbelow |]. split; [now apply Hbelow |].
    now rewrite Hout.
Defined.

Lemma archive_step_fails_on_repeated_path_witness :
  let w := mk_world Cases.files_of_intro [] 0 in
  let files := [Runs.intro_mp3; Runs.intro_mp3] in
  let fs1 := FS.write Cases.files_of_intro Cases.mix_zip
                      (Archive [["Intro.mp3"]; ["Intro.mp3"]]) in
  (~ NoDup files
   /\ create_zip Runs.same_title files Cases.mix_zip Runs.mix_dir (fs_of w)
      = (Returned tt, fs1))
  /\ exists e fs',
      finish Runs.same_title Scenario.output "Mix" Runs.mix_dir true files w
      = (Raised e, mk_world fs' [] 0)
      /\ exn_class_of e = FileNotFoundError
      /\ FS.is_dir fs' Runs.mix_dir = true.
Proof.
  cbv zeta.
  assert (Hdup : ~ NoDup [Runs.intro_mp3; Runs.intro_mp3]).
  { intros Hnd. inversion Hnd as [| ? ? Hnotin _]. apply Hnotin. now left. }
  split; [split; [exact Hdup | reflexivity] |].
  destruct (archive_step_fails_on_repeated_path
              Runs.same_title Scenario.output "Mix" Runs.mix_dir
              [Runs.intro_mp3; Runs.intro_mp3] (mk_world Cases.files_of_intro [] 0)
              (FS.write Cases.files_of_intro Cases.mix_zip
                        (Archive [["Intro.mp3"]; ["Intro.mp3"]])))
    as (e & fs' & Heq & Hclass & Hdir & _).
  - exact Hdup.
  - reflexivity.
  - intros p Hp. now apply ArchiveFacts.lookup_write_other.
  - repeat constructor.
  - reflexivity.
  - reflexivity.
  - exists e, fs'. repeat split; assumption.
Defined.

(* ===================================================================== *)
(** ** Properties of [main] *)
(* ===================================================================== *)

Module MainFacts.

Lemma ask_url_skips validate_url rejected : forall playlist_url rest,
  Forall (fun line => validate_url line = false) rejected ->
  validate_url playlist_url = true ->
  ask_url validate_url (rejected ++ playlist_url :: rest)
  = (Some playlist_url, rest, asked url_prompt invalid_url rejected).
Proof.
  induction rejected as [| line rejected IH]; intros playlist_url rest Hrej Hok.
  - cbn. now rewrite Hok.
  - inversion Hrej as [| ? ? Hline Hrest]; subst.
    cbn [app ask_url]. rewrite Hline, (IH playlist_url rest Hrest Hok). reflexivity.
Qed.

Lemma ask_url_runs_dry validate_url stdin :
  Forall (fun line => validate_url line = false) stdin ->
  ask_url validate_url stdin = (None, [], asked url_prompt invalid_url stdin).
Proof.
  induction 1 as [| line stdin Hline _ IH]; [reflexivity |].
  cbn [ask_url]. now rewrite Hline, IH.
Qed.

Lemma ask_zip_skips rejected : forall answer rest,
  Forall (fun line => is_yes_or_no line = false) rejected ->
  is_yes_or_no answer = true ->
  ask_zip (rejected ++ answer :: rest)
  = (Some (String.eqb (Text.lower answer) "y"), rest,
     asked zip_prompt invalid_answer rejected).
Proof.
  unfold is_yes_or_no.
  induction rejected as [| line rejected IH]; intros answer rest Hrej Hok.
  - cbn. now rewrite Hok.
  - inversion Hrej as [| ? ? Hline Hrest]; subst.
    cbn [app ask_zip]. rewrite Hline, (IH answer rest Hrest Hok). reflexivity.
Qed.

(** Making a directory tree that is already there changes nothing. *)
Lemma mkdir_from_again todo : forall fs done fs' fs2,
  FS.mkdir_from fs done todo = Returned fs' ->
  FS.is_dir fs done = true ->
  (forall q, FS.is_dir fs' q = true -> FS.is_dir fs2 q = true) ->
  FS.mkdir_from fs2 done todo = Returned fs2.
Proof.
  induction todo as [| c todo IH]; intros fs done fs' fs2 H Hdone Hsub; [reflexivity |].
  cbn in H. destruct (FS.mkdir fs (done ++ [c])) as [fs1 |] eqn:Hm; [| discriminate].
  destruct (PrepareFacts.mkdir_made _ _ _ Hm) as [Hmade _].
  destruct (PrepareFacts.mkdir_from_made todo fs1 (done ++ [c]) fs' H Hmade) as [_ Hkept].
  assert (Hd2 : FS.is_dir fs2 (done ++ [c]) = true) by apply Hsub, Hkept, Hmade.
  cbn [FS.mkdir_from].
  assert (Hm2 : FS.mkdir fs2 (done ++ [c]) = Returned fs2).
  { unfold FS.mkdir. unfold FS.is_dir in Hd2.
    destruct (done ++ [c]) as [| a p'] eqn:E; [reflexivity |].
    destruct (FS.lookup fs2 (a :: p')) as [[| x] |]; easy. }
  rewrite Hm2. exact (IH fs1 (done ++ [c]) fs' fs2 H Hmade Hsub).
Qed.

Lemma mkdir_parents_again fs p fs' :
  FS.mkdir_parents fs p = Returned fs' -> FS.mkdir_parents fs' p = Returned fs'.
Proof.
  intros H. exact (mkdir_from_again p fs [] fs' fs' H eq_refl (fun q Hq => Hq)).
Qed.

(** [main] once its three questions are answered. *)
Lemma main_answered env validate_url cwd w
      rejected_urls playlist_url answer rejected_answers zip_answer rest fs1 :
  Forall (fun line => validate_url line = false) rejected_urls ->
  validate_url playlist_url = true ->
  Forall (fun line => is_yes_or_no line = false) rejected_answers ->
  is_yes_or_no zip_answer = true ->
  FS.mkdir_parents (fs_of w) (chosen_directory cwd answer) = Returned fs1 ->
  main env validate_url cwd
       (rejected_urls ++ playlist_url :: answer :: rejected_answers ++ zip_answer :: rest) w
  = let shown := asked url_prompt invalid_url rejected_urls
                 ++ [Prompt dir_prompt]
                 ++ asked zip_prompt invalid_answer rejected_answers
                 ++ [Informed "Downloading now please wait..."] in
    match download_playlist env playlist_url (chosen_directory cwd answer) 3
                            default_min_delay default_max_delay
                            (String.eqb (Text.lower zip_answer) "y")
                            (mk_world fs1 (trace_of w) (draws_of w)) with
    | (Returned (Some download), w2) => (Finished, shown ++ [Succeeded download], w2)
    | (Returned None, w2) =>
        (Finished, shown ++ [Failed "Failed to download playlist."], w2)
    | (Raised e, w2) => (Crashed e, shown, w2)
    end.
Proof.
  intros Hrej Hok Hrej2 Hok2 Hmk.
  unfold main.
  rewrite (ask_url_skips validate_url rejected_urls playlist_url _ Hrej Hok).
  unfold mkdir_parents, update_fs, with_fs. rewrite Hmk.
  rewrite (ask_zip_skips rejected_answers zip_answer rest Hrej2 Hok2).
  reflexivity.
Qed.

End MainFacts.

(** [main] asks until it is answered: lines that [validate_url] turns down
    and answers to the archive question other than [y] or [n] (in either
    case) each cost one warning and are otherwise ignored.  It then runs
    [download_playlist] on the accepted URL and the chosen directory with
    three workers and the default delays, archiving exactly when the answer
    was [y] or [Y]; it logs success for a returned path, failure for [None],
    and lets an exception of [download_playlist] through. *)
Theorem main_downloads_what_was_asked :
  forall env validate_url cwd w
         rejected_urls playlist_url answer rejected_answers zip_answer rest fs1,
    Forall (fun line => validate_url line = false) rejected_urls ->
    validate_url playlist_url = true ->
    Forall (fun line => is_yes_or_no line = false) rejected_answers ->
    is_yes_or_no zip_answer = true ->
    FS.mkdir_parents (fs_of w) (chosen_directory cwd answer) = Returned fs1 ->
    main env validate_url cwd
         (rejected_urls ++ playlist_url :: answer :: rejected_answers ++ zip_answer :: rest)
         w
    = let shown := asked url_prompt invalid_url rejected_urls
                   ++ [Prompt dir_prompt]
                   ++ asked zip_prompt invalid_answer rejected_answers
                   ++ [Informed "Downloading now please wait..."] in
      match download_playlist env playlist_url (chosen_directory cwd answer) 3
                              default_min_delay default_max_delay
                              (String.eqb (Text.lower zip_answer) "y")
                              (mk_world fs1 (trace_of w) (draws_of w)) with
      | (Returned (Some download), w2) => (Finished, shown ++ [Succeeded download], w2)
      | (Returned None, w2) =>
          (Finished, shown ++ [Failed "Failed to download playlist."], w2)
      | (Raised e, w2) => (Crashed e, shown, w2)
      end.
Proof.
  intros. now apply MainFacts.main_answered.
Qed.

(** If the input ends before a line passes [validate_url], [main] stops
    with [EOFError] at the URL prompt, having warned once per line and
    touched nothing: no directory is made, nothing is downloaded. *)
Theorem main_stops_when_input_runs_dry :
  forall env validate_url cwd stdin w,
    Forall (fun line => validate_url line = false) stdin ->
    main env validate_url cwd stdin w
    = (EndOfInput, asked url_prompt invalid_url stdin, w).
Proof.
  intros env validate_url cwd stdin w Hrej.
  unfold main. now rewrite (MainFacts.ask_url_runs_dry validate_url stdin Hrej).
Qed.

(** A failing playlist extraction is fatal for the whole program: once the
    questions are answered and the output directory is made, [main] ends
    with the extractor's exception, having logged neither the success nor
    the failure line; the directory it made stays. *)
Theorem main_crashes_on_extraction_failure :
  forall env validate_url cwd w
         rejected_urls playlist_url answer rejected_answers zip_answer rest fs1 e,
    Forall (fun line => validate_url line = false) rejected_urls ->
    validate_url playlist_url = true ->
    Forall (fun line => is_yes_or_no line = false) rejected_answers ->
    is_yes_or_no zip_answer = true ->
    FS.mkdir_parents (fs_of w) (chosen_directory cwd answer) = Returned fs1 ->
    extract_info env (VStr playlist_url) = Raised e ->
    main env validate_url cwd
         (rejected_urls ++ playlist_url :: answer :: rejected_answers ++ zip_answer :: rest)
         w
    = (Crashed e,
       asked url_prompt invalid_url rejected_urls
       ++ [Prompt dir_prompt]
       ++ asked zip_prompt invalid_answer rejected_answers
       ++ [Informed "Downloading now please wait..."],
       mk_world fs1
                (trace_of w ++ [Log DEBUG (DownloadingToDirectory
                                             (chosen_directory cwd answer))])
                (draws_of w)).
Proof.
  intros env validate_url cwd w rejected_urls playlist_url answer rejected_answers
         zip_answer rest fs1 e Hrej Hok Hrej2 Hok2 Hmk Hx.
  rewrite (MainFacts.main_answered env validate_url cwd w rejected_urls playlist_url
             answer rejected_answers zip_answer rest fs1 Hrej Hok Hrej2 Hok2 Hmk).
  cbv zeta.
  rewrite (PlaylistFacts.download_playlist_prepare_raises
             env playlist_url (chosen_directory cwd answer) 3
             default_min_delay default_max_delay
             (String.eqb (Text.lower zip_answer) "y")
             (mk_world fs1 (trace_of w) (draws_of w)) e
             (mk_world fs1
                (trace_of w ++ [Log DEBUG (DownloadingToDirectory
                                             (chosen_directory cwd answer))])
                (draws_of w))).
  - reflexivity.
  - apply (PlaylistFacts.prepare_raises env playlist_url (chosen_directory cwd answer)
             (mk_world fs1 (trace_of w) (draws_of w)) e fs1 Hx).
    cbn [fs_of]. exact (MainFacts.mkdir_parents_again _ _ _ Hmk).
Qed.

Lemma main_downloads_what_was_asked_witness :
  let stdin := ["soundcloud"; Scenario.playlist_url; Cases.no_break_space; "maybe"; "Y"] in
  (Forall (fun line => Cases.on_soundcloud line = false) ["soundcloud"]
   /\ Cases.on_soundcloud Scenario.playlist_url = true
   /\ Forall (fun line => is_yes_or_no line = false) ["maybe"]
   /\ is_yes_or_no "Y" = true
   /\ FS.mkdir_parents [] (chosen_directory Cases.home Cases.no_break_space)
      = Returned Cases.output_made)
  /\ fst (main Cases.both Cases.on_soundcloud Cases.home stdin Scenario.empty_world)
     = (Finished,
        [Prompt url_prompt; Warned invalid_url; Prompt url_prompt;
         Prompt dir_prompt;
         Prompt zip_prompt; Warned invalid_answer; Prompt zip_prompt;
         Informed "Downloading now please wait...";
         Succeeded Cases.mix_zip]).
Proof.
  cbv zeta.
  assert (H1 : Forall (fun line => Cases.on_soundcloud line = false) ["soundcloud"])
    by (repeat constructor).
  assert (H3 : Forall (fun line => is_yes_or_no line = false) ["maybe"])
    by (repeat constructor).
  split; [repeat split; solve [assumption | reflexivity] |].
  pose proof (main_downloads_what_was_asked
                Cases.both Cases.on_soundcloud Cases.home Scenario.empty_world
                ["soundcloud"] Scenario.playlist_url Cases.no_break_space ["maybe"] "Y" []
                Cases.output_made H1 eq_refl H3 eq_refl eq_refl) as Hmain.
  cbn [app] in Hmain. rewrite Hmain. reflexivity.
Defined.

Lemma main_stops_when_input_runs_dry_witness :
  Forall (fun line => Cases.on_soundcloud line = false) ["soundcloud"; "again"]
  /\ main Cases.both Cases.on_soundcloud Cases.home ["soundcloud"; "again"]
          Scenario.empty_world
     = (EndOfInput,
        [Prompt url_prompt; Warned invalid_url; Prompt url_prompt; Warned invalid_url;
         Prompt url_prompt],
        Scenario.empty_world).
Proof.
  assert (H : Forall (fun line => Cases.on_soundcloud line = false) ["soundcloud"; "again"])
    by (repeat constructor).
  split; [exact H |].
  exact (main_stops_when_input_runs_dry
           Cases.both Cases.on_soundcloud Cases.home ["soundcloud"; "again"]
           Scenario.empty_world H).
Defined.

Lemma main_crashes_on_extraction_failure_witness :
  let stdin := ["https://soundcloud.com/nobody/sets/none"; "output"; "n"] in
  extract_info Cases.both (VStr "https://soundcloud.com/nobody/sets/none")
  = Raised Scenario.unavailable
  /\ main Cases.both Cases.on_soundcloud Cases.home stdin Scenario.empty_world
     = (Crashed Scenario.unavailable,
        [Prompt url_prompt; Prompt dir_prompt; Prompt zip_prompt;
         Informed "Downloading now please wait..."],
        mk_world Cases.output_made [Log DEBUG (DownloadingToDirectory Scenario.output)] 0).
Proof.
  cbv zeta. split; [reflexivity |].
  exact (main_crashes_on_extraction_failure
           Cases.both Cases.on_soundcloud Cases.home Scenario.empty_world
           [] "https://soundcloud.com/nobody/sets/none" "output" [] "n" []
           Cases.output_made Scenario.unavailable
           (Forall_nil _) eq_refl (Forall_nil _) eq_refl eq_refl eq_refl).
Defined.

Lemma get_playlist_info_tracks_have_minimal_fields_witness :
  let env := Scenario.make (VStr "Mix")
                           [Scenario.track_a; VNone; Scenario.removed; Scenario.track_b]
                           [] Scenario.fetch_mp3 in
  fst (get_playlist_info env Scenario.playlist_url Scenario.empty_world)
  = Returned (Runs.mix [Scenario.track_a; Scenario.track_b])
  /\ Forall (fun t => has_minimal_fields t = true)
            (Playlist.tracks (Runs.mix [Scenario.track_a; Scenario.track_b])).
Proof.
  cbv zeta. split; [reflexivity |].
  exact (proj2 (get_playlist_info_tracks_have_minimal_fields
                  (Scenario.make (VStr "Mix")
                     [Scenario.track_a; VNone; Scenario.removed; Scenario.track_b]
                     [] Scenario.fetch_mp3)
                  Scenario.playlist_url Scenario.empty_world)
               _ eq_refl).
Defined.

(* ===================================================================== *)
(** ** What escapes [download_track], and what it logs *)
(* ===================================================================== *)

(** C1, as the specification states it, fails: exceptions do leave
    [download_track].  What comes after the fetch (lines 80 to 97) stands
    outside both [try] blocks.  With probe and fetch both returning, a
    target directory that does not exist makes the scan of the directory
    raise [FileNotFoundError]; and inside a playlist run, titles that
    sanitize to the empty name at the root directory make [with_suffix]
    raise [ValueError], which the task's future hands to
    [download_playlist]. *)
Lemma download_track_lets_search_errors_escape :
  (probe_gives Cases.silent (track_of Scenario.track_a) "Intro"
   /\ fetch_ends Cases.silent (track_of Scenario.track_a) ["nowhere"] "Intro"
                 [] (Returned tt) []
   /\ fst (download_track Cases.silent (track_of Scenario.track_a) ["nowhere"]
                          Scenario.empty_world)
      = Raised (mk_exn FileNotFoundError "/nowhere"))
  /\ (probe_gives Cases.unnamed (track_of Cases.question_mark) "?"
      /\ fetch_ends Cases.unnamed (track_of Cases.question_mark) [] "?" [] (Returned tt) []
      /\ fst (download_track Cases.unnamed (track_of Cases.question_mark) []
                             Scenario.empty_world)
         = Raised (mk_exn ValueError "path has an empty name")
      /\ fst (download_playlist Cases.unnamed Scenario.playlist_url []
                                default_max_workers default_min_delay default_max_delay
                                false Scenario.empty_world)
         = Raised (mk_exn ValueError "path has an empty name")).
Proof.
  split.
  - split; [exists Scenario.track_a; split; reflexivity |].
    split; reflexivity.
  - split; [exists Cases.question_mark; split; reflexivity |].
    repeat split; reflexivity.
Qed.

Module TrackLogFacts.

Lemma log_sink_app a b : log_sink (a ++ b) = log_sink a ++ log_sink b.
Proof. unfold log_sink. apply flat_map_app. Qed.

(** The search for the file logs one line at INFO when it returns, found or
    not, and none when it raises. *)
Lemma resolve_downloaded_logs output_dir clean_name target w :
  exists o shown,
    resolve_downloaded output_dir clean_name target w
    = (o, mk_world (fs_of w) (trace_of w ++ shown) (draws_of w))
    /\ match o with
       | Returned _ => exists line, log_sink shown = [line]
       | Raised _ => log_sink shown = []
       end.
Proof.
  unfold resolve_downloaded.
  unfold bind at 1. unfold sleep. cbn [Qle_bool Qnum Qden Z.mul Z.leb Z.compare Pos.mul].
  unfold bind at 1. unfold lift.
  destruct (Path.with_suffix target ".mp3") as [mp3 | e].
  2:{ exists (Raised e), [Sleep (1 # 2)]. split; reflexivity. }
  unfold path_exists, iterdir, observe, read_fs, with_fs, log, ret, bind.
  cbn [fs_of trace_of draws_of].
  destruct (FS.exists_ (fs_of w) mp3).
  { eexists. eexists. split; [world_shape |]. eexists. reflexivity. }
  cbn [fs_of trace_of draws_of].
  destruct (FS.exists_ (fs_of w) target).
  { eexists. eexists. split; [world_shape |]. eexists. reflexivity. }
  cbn [fs_of trace_of draws_of].
  destruct (FS.iterdir (fs_of w) output_dir) as [dir_contents | e].
  2:{ eexists. eexists. split; [world_shape |]. reflexivity. }
  destruct (List.filter _ dir_contents) as [| f rest].
  - eexists. eexists. split; [world_shape |]. eexists. reflexivity.
  - eexists. eexists. split; [world_shape |]. eexists. reflexivity.
Qed.

End TrackLogFacts.

(** Apart from its log lines, [download_track] writes and deletes nothing
    itself and draws no random number: however it ends, the files of the
    output tree are those the fetch left, or those it started with when the
    probe failed.  Of log lines at INFO, the level of the log file, it
    writes exactly one when it returns, with a file or with [None], and
    none when it raises. *)
Theorem download_track_writes_one_log_line :
  forall env track output_dir w,
    fs_of (snd (download_track env track output_dir w))
    = match extract_info env (Track.url track) with
      | Returned info =>
          match prepare_filename env info with
          | Returned filename =>
              snd (download env (Path.to_str (target_of env output_dir filename))
                            (Track.url track) (fs_of w))
          | Raised _ => fs_of w
          end
      | Raised _ => fs_of w
      end
    /\ draws_of (snd (download_track env track output_dir w)) = draws_of w
    /\ match fst (download_track env track output_dir w) with
       | Returned _ =>
           exists line,
             log_sink (trace_of (snd (download_track env track output_dir w)))
             = log_sink (trace_of w) ++ [line]
       | Raised _ =>
           log_sink (trace_of (snd (download_track env track output_dir w)))
           = log_sink (trace_of w)
       end.
Proof.
  intros env track output_dir w.
  assert (Hskip : forall e : exn,
             let run : outcome (option path) * world :=
               if is_Exception e
               then (Returned None,
                     mk_world (fs_of w)
                       (trace_of w ++ [Log INFO (SkippingProbe (Track.title track)
                                                              (Track.url track) e)])
                       (draws_of w))
               else (Raised e, w) in
             fs_of (snd run) = fs_of w
             /\ draws_of (snd run) = draws_of w
             /\ match fst run with
                | Returned _ =>
                    exists line, log_sink (trace_of (snd run)) = log_sink (trace_of w) ++ [line]
                | Raised _ => log_sink (trace_of (snd run)) = log_sink (trace_of w)
                end).
  { intros e. cbv zeta. destruct (is_Exception e); cbn [fst snd fs_of draws_of trace_of].
    - repeat split. eexists. rewrite TrackLogFacts.log_sink_app. reflexivity.
    - repeat split. }
  rewrite TrackFacts.download_track_cases. cbv zeta.
  destruct (extract_info env (Track.url track)) as [info | e]; [| exact (Hskip e)].
  destruct (prepare_filename env info) as [filename | e]; [| exact (Hskip e)].
  destruct (download env (Path.to_str (target_of env output_dir filename))
                     (Track.url track) (fs_of w)) as [[u | e] fs'].
  - destruct (TrackLogFacts.resolve_downloaded_logs
                output_dir (clean_filename env filename)
                (target_of env output_dir filename)
                (mk_world fs' (trace_of w) (draws_of w))) as (o & shown & Heq & Hlog).
    rewrite Heq. cbn [fst snd fs_of draws_of trace_of].
    split; [reflexivity |]. split; [reflexivity |].
    rewrite TrackLogFacts.log_sink_app.
    destruct o as [r | e].
    + destruct Hlog as [line Hline]. exists line. now rewrite Hline.
    + now rewrite Hlog, app_nil_r.
  - destruct (is_Exception e); cbn [fst snd fs_of draws_of trace_of].
    + repeat split. eexists. rewrite TrackLogFacts.log_sink_app. reflexivity.
    + repeat split.
Qed.

(* ===================================================================== *)
(** ** The politeness delay *)
(* ===================================================================== *)

Module DelayFacts.



End DelayFacts.



